(** * Temporal-integrity pipeline of the NCAA basketball model

    A shallow embedding of the leakage-sensitive parts of the repository:
    rolling in-season statistics, dated rating attachment, the walk-forward
    splitter, the odds-band policy, Kelly sizing, the longdog calibration
    entry point and the production prediction path.

    Conventions.
    - A pandas float cell is an [option Q]: [None] stands for NaN (and for any
      other non-finite float), [Some q] for the number [q].  Arithmetic is
      exact, so rounding error of binary floating point is not represented.
      Kelly sizing is the exception: a whole-dollar stake depends on how the
      float product rounds, so it is computed in binary64 itself.
    - A date (a pandas Timestamp) is a [Z], counted in days.
    - A DataFrame is the list of its rows, in row order. *)

From Stdlib Require Import String.
From Stdlib Require Import List ZArith QArith Qround Qabs Lia Lqa Bool Sorted
  Permutation.
From Stdlib Require PrimFloat FloatOps SpecFloat.
Import ListNotations.

(** ** Float cells with NaN *)

Abbreviation cell := (option Q).

Definition notna (c : cell) : bool :=
  match c with Some _ => true | None => false end.

Definition lift2 (f : Q -> Q -> Q) (a b : cell) : cell :=
  match a, b with
  | Some x, Some y => Some (f x y)
  | _, _ => None
  end.

(** Division of float cells; a zero divisor gives a non-finite float. *)
Definition cdiv (a b : cell) : cell :=
  match a, b with
  | Some x, Some y => if Qeq_bool y 0 then None else Some (x / y)
  | _, _ => None
  end.

(** The numbers of a series, NaN entries dropped. *)
Fixpoint present (s : list cell) : list Q :=
  match s with
  | [] => []
  | Some x :: t => x :: present t
  | None :: t => present t
  end.

Definition Qsum (l : list Q) : Q := fold_right Qplus 0 l.

(** [df[lo:hi]]: the rows at positions [lo <= k < hi]. *)
Definition obs_range {A} (lo hi : nat) (s : list A) : list A :=
  skipn lo (firstn hi s).

(** ** Exceptions *)

Inductive error :=
| FileNotFoundError | ValueError | KeyError | ZeroDivisionError.

Inductive result (A : Type) :=
| Ok (a : A)
| Raise (e : error).
Arguments Ok {A} a.
Arguments Raise {A} e.

(** ** Calendar dates as day numbers *)

(** Days from 1970-01-01 to the given day of the proleptic Gregorian calendar,
    which is what a date literal such as '2023-11-06' parses to. *)
Definition days_from_civil (y m d : Z) : Z :=
  let y' := if (m <=? 2)%Z then (y - 1)%Z else y in
  let era := (y' / 400)%Z in
  let yoe := (y' - era * 400)%Z in
  let mp := if (2 <? m)%Z then (m - 3)%Z else (m + 9)%Z in
  let doy := ((153 * mp + 2) / 5 + d - 1)%Z in
  let doe := (yoe * 365 + yoe / 4 - yoe / 100 + doy)%Z in
  (era * 146097 + doe - 719468)%Z.

(** ** ml/features_inseason_stats.py *)

Module Rolling.

(** One game seen from one team: a row of [team_games].  A column that the
    frame lacks is read through [row.get] with its default, so [fga] and
    [fta] are NaN and [oreb], [tov] are 0 in that case. *)
Record game := mkGame {
  date : Z;
  points_for : cell;
  points_against : cell;
  won : cell;
  is_home : bool;
  fga : cell;
  fta : cell;
  oreb : cell;
  tov : cell
}.

(** [estimate_possessions]: FGA + 0.44 * FTA - OREB + TOV, or 70.0. *)
Definition estimate_possessions (g : game) : cell :=
  if notna (fga g) && notna (fta g) then
    lift2 Qplus
      (lift2 Qminus
         (lift2 Qplus (fga g) (lift2 Qmult (Some (44 # 100)) (fta g)))
         (oreb g))
      (tov g)
  else Some 70.

(** [sort_values('date')].  Games of the same date are kept in input order
    here; pandas does not fix their order, and nothing below depends on it. *)
Fixpoint insert_by_date (g : game) (l : list game) : list game :=
  match l with
  | [] => [g]
  | h :: t =>
      if (date g <=? date h)%Z then g :: l else h :: insert_by_date g t
  end.

Definition sort_values (l : list game) : list game :=
  fold_right insert_by_date [] l.

(** The per-game columns added at lines 55-74. *)
Record per_game := mkPerGame {
  obs : game;
  possessions : cell;
  ORtg : cell;
  DRtg : cell;
  Pace : cell;
  MoV : cell
}.

Definition add_per_game (has_fga : bool) (g : game) : per_game :=
  let poss := if has_fga then estimate_possessions g else Some 70 in
  {| obs := g;
     possessions := poss;
     ORtg := lift2 Qmult (cdiv (points_for g) poss) (Some 100);
     DRtg := lift2 Qmult (cdiv (points_against g) poss) (Some 100);
     Pace := poss;
     MoV := lift2 Qminus (points_for g) (points_against g) |}.

Inductive metric := M_ORtg | M_DRtg | M_Pace | M_MoV | M_WinPct.

Definition metric_eqb (a b : metric) : bool :=
  match a, b with
  | M_ORtg, M_ORtg | M_DRtg, M_DRtg | M_Pace, M_Pace
  | M_MoV, M_MoV | M_WinPct, M_WinPct => true
  | _, _ => false
  end.

(** The source column a rolling feature is computed from. *)
Definition metric_of (m : metric) (r : per_game) : cell :=
  match m with
  | M_ORtg => ORtg r
  | M_DRtg => DRtg r
  | M_Pace => Pace r
  | M_MoV => MoV r
  | M_WinPct => won (obs r)
  end.

(** [Series.shift(1)]: every value moves one row down, row 0 becomes NaN. *)
Definition shift1 (s : list cell) : list cell :=
  firstn (length s) (None :: s).

(** The rows a trailing window of [w] rows ending at row [i] covers. *)
Definition window_at {A} (w i : nat) (s : list A) : list A :=
  obs_range (i + 1 - w) (i + 1) s.

(** The mean pandas reports for one window: NaN entries are not counted,
    and fewer than [min_periods] numbers give NaN. *)
Definition nanmean (min_periods : nat) (xs : list cell) : cell :=
  let v := present xs in
  if (Nat.leb min_periods (length v) && Nat.leb 1 (length v))%bool
  then Some (Qsum v / inject_Z (Z.of_nat (length v)))
  else None.

(** [Series.rolling(window=w, min_periods=mp).mean()]. *)
Definition rolling_mean (w mp : nat) (s : list cell) : list cell :=
  map (fun i => nanmean mp (window_at w i s)) (seq 0 (length s)).

(** [team_games[col].shift(1).rolling(window, min_periods=1).mean()] *)
Definition rolling_col (m : metric) (w : nat) (rows : list per_game)
  : list cell :=
  rolling_mean w 1 (shift1 (map (metric_of m) rows)).

Definition colkey := (metric * Z)%type.

Definition colkey_eqb (a b : colkey) : bool :=
  metric_eqb (fst a) (fst b) && (snd a =? snd b)%Z.

(** The frame after the loop over [lookback_windows] (lines 77-101):
    the per-game rows and the named rolling columns. *)
Record rolled := mkRolled {
  games : list per_game;
  columns : list (colkey * list cell)
}.

Definition window_columns (rows : list per_game) (w : Z)
  : list (colkey * list cell) :=
  let n := Z.to_nat w in
  [ ((M_ORtg, w), rolling_col M_ORtg n rows);
    ((M_DRtg, w), rolling_col M_DRtg n rows);
    ((M_Pace, w), rolling_col M_Pace n rows);
    ((M_MoV, w), rolling_col M_MoV n rows);
    ((M_WinPct, w), rolling_col M_WinPct n rows) ].

(** pandas refuses [rolling(window=w, min_periods=1)] when [w < 1]
    (ValueError); [None] stands for that exception. *)
Definition roll_all (has_fga : bool) (team_games : list game)
    (lookback_windows : list Z) : option rolled :=
  let rows := map (add_per_game has_fga) (sort_values team_games) in
  if forallb (fun w => (1 <=? w)%Z) lookback_windows
  then Some {| games := rows;
               columns := flat_map (window_columns rows) lookback_windows |}
  else None.

Fixpoint lookup_col (k : colkey) (cols : list (colkey * list cell))
  : option (list cell) :=
  match cols with
  | [] => None
  | (k', c) :: t => if colkey_eqb k k' then Some c else lookup_col k t
  end.

(** The value of column [m_L{w}] at row [i]. *)
Definition feature_at (f : rolled) (m : metric) (w : Z) (i : nat)
  : option cell :=
  match lookup_col (m, w) (columns f) with
  | Some c => nth_error c i
  | None => None
  end.

(** A row of the returned frame: the position [src] of the row of the rolled
    frame it was made from, that row with its rolling columns, the home and
    road split columns merged onto it, and [games_played]. *)
Record out_row := mkOut {
  src : nat;
  base : per_game;
  rolling : list (colkey * cell);
  ORtg_at_home_L5 : cell;
  DRtg_at_home_L5 : cell;
  ORtg_on_road_L5 : cell;
  DRtg_on_road_L5 : cell;
  games_played : nat
}.

(** The right-hand frame of a split merge: [date] and the two L5 columns
    of the games with [is_home == flag]. *)
Definition split_frame (flag : bool) (rows : list per_game)
  : list (Z * (cell * cell)) :=
  let sub := filter (fun r => Bool.eqb (is_home (obs r)) flag) rows in
  combine (map (fun r => date (obs r)) sub)
          (combine (rolling_col M_ORtg 5 sub) (rolling_col M_DRtg 5 sub)).

(** What [merge(..., on='date', how='left')] pairs a left row with: every
    right row of that date, or one row of NaN when there is none. *)
Definition matches (d : Z) (right : list (Z * (cell * cell)))
  : list (cell * cell) :=
  match map snd (filter (fun r => (fst r =? d)%Z) right) with
  | [] => [(None, None)]
  | l => l
  end.

Definition merge_splits (rows : list per_game)
  : list (nat * per_game * (cell * cell) * (cell * cell)) :=
  let home := split_frame true rows in
  let away := split_frame false rows in
  let left := combine (seq 0 (length rows)) rows in
  let m1 := flat_map (fun ir =>
              map (fun h => (ir, h)) (matches (date (obs (snd ir))) home))
              left in
  flat_map (fun irh =>
    map (fun a => (fst irh, snd irh, a))
        (matches (date (obs (snd (fst irh)))) away)) m1.

(** Row [i] of the named columns. *)
Definition row_of_columns (cols : list (colkey * list cell)) (i : nat)
  : list (colkey * cell) :=
  map (fun kc => (fst kc, nth i (snd kc) None)) cols.

Fixpoint lookup_cell (k : colkey) (l : list (colkey * cell)) : option cell :=
  match l with
  | [] => None
  | (k', c) :: t => if colkey_eqb k k' then Some c else lookup_cell k t
  end.

(** The value of column [m_L{w}] in a returned row. *)
Definition row_feature (o : out_row) (m : metric) (w : Z) : option cell :=
  lookup_cell (m, w) (rolling o).

Definition number_rows (cols : list (colkey * list cell))
    (l : list (nat * per_game * (cell * cell) * (cell * cell)))
  : list out_row :=
  map (fun kx =>
         let '(k, (i, r, h, a)) := kx in
         {| src := i; base := r; rolling := row_of_columns cols i;
            ORtg_at_home_L5 := fst h; DRtg_at_home_L5 := snd h;
            ORtg_on_road_L5 := fst a; DRtg_on_road_L5 := snd a;
            games_played := k |})
      (combine (seq 0 (length l)) l).

(** [compute_team_rolling_stats]: the rolled frame together with the rows
    returned.  Without an [is_home] column no merge takes place. *)
Definition compute_team_rolling_stats (has_fga has_is_home : bool)
    (team_games : list game) (lookback_windows : list Z)
  : option (rolled * list out_row) :=
  match roll_all has_fga team_games lookback_windows with
  | None => None
  | Some f =>
      let merged :=
        if has_is_home then merge_splits (games f)
        else map (fun ir => (fst ir, snd ir, (None, None), (None, None)))
                 (combine (seq 0 (length (games f))) (games f)) in
      Some (f, number_rows (columns f) merged)
  end.

(** Three games of one team, given out of date order: an 80-70 home win on
    day 10, 60-75 on the road on day 3, 90-60 at home on day 20. *)
Definition sample_games : list game :=
  [ mkGame 10 (Some 80) (Some 70) (Some 1) true None None (Some 0) (Some 0);
    mkGame 3 (Some 60) (Some 75) (Some 0) false None None (Some 0) (Some 0);
    mkGame 20 (Some 90) (Some 60) (Some 1) true None None (Some 0) (Some 0) ].

End Rolling.

(** ** ml/walkforward_backtest.py *)

Module WalkForward.

(** A row of the merged game table; only [date] matters to the splitter. *)
Record row := mkRow { event_id : nat; date : Z }.

Definition row_eqb (a b : row) : bool :=
  Nat.eqb (event_id a) (event_id b) && (date a =? date b)%Z.

(** [split_train_test_by_date]:
    [train_df = df[df['date'] < test_start_date]],
    [test_df = df[(df['date'] >= test_start_date)
                  & (df['date'] <= test_end_date)]]. *)
Definition split_train_test_by_date (df : list row)
    (test_start_date test_end_date : Z) : list row * list row :=
  (filter (fun r => (date r <? test_start_date)%Z) df,
   filter (fun r => ((test_start_date <=? date r)
                     && (date r <=? test_end_date))%Z) df).

(** What one pass of the [while] loop does with its period: either the
    models are fitted on [train] and [test] is predicted, or the period is
    skipped for lack of training rows. *)
Inductive period :=
| Fit (period_num : nat) (test_start test_end : Z) (train test : list row)
| Skip (period_num : nat) (test_start test_end : Z) (train test : list row).

(** The [while current_test_start < max_date] loop.  The second component
    tells whether the loop came to its end within [fuel] passes. *)
Fixpoint loop (fuel : nat) (df : list row) (max_date test_window_days : Z)
    (current_test_start : Z) (period_num : nat) : list period * bool :=
  match fuel with
  | O => ([], false)
  | S fuel' =>
      if (current_test_start <? max_date)%Z then
        let current_test_end :=
          Z.min (current_test_start + test_window_days) max_date in
        let '(train_df, test_df) :=
          split_train_test_by_date df current_test_start current_test_end in
        if Nat.eqb (length test_df) 0 then ([], true)
        else
          let '(later, finished) :=
            loop fuel' df max_date test_window_days current_test_end
                 (S period_num) in
          if Nat.ltb (length train_df) 50 then
            (Skip period_num current_test_start current_test_end
                  train_df test_df :: later, finished)
          else
            (Fit period_num current_test_start current_test_end
                 train_df test_df :: later, finished)
      else ([], true)
  end.

Definition min_date (df : list row) (d0 : Z) : Z :=
  fold_right (fun r m => Z.min (date r) m) d0 df.

Definition max_date (df : list row) (d0 : Z) : Z :=
  fold_right (fun r m => Z.max (date r) m) d0 df.

(** [walkforward_backtest]: the periods visited, in order.  On an empty
    table both bounds are NaT and the loop body never runs. *)
Definition walkforward_backtest (fuel : nat) (df : list row)
    (initial_train_months test_window_days : Z) : list period * bool :=
  match df with
  | [] => ([], true)
  | r :: _ =>
      let lo := min_date df (date r) in
      let hi := max_date df (date r) in
      let initial_train_end := (lo + initial_train_months * 30)%Z in
      loop fuel df hi test_window_days initial_train_end 1
  end.

(** The training frames handed to [train_models], one per fitted period,
    each with the start of the period it was fitted for. *)
Definition fit_calls (ps : list period) : list (Z * list row) :=
  flat_map (fun p => match p with
                     | Fit _ s _ train _ => [(s, train)]
                     | Skip _ _ _ _ _ => []
                     end) ps.

(** [results['test_data']]: the predicted test frames, concatenated. *)
Definition test_data (ps : list period) : list row :=
  flat_map (fun p => match p with
                     | Fit _ _ _ _ test => test
                     | Skip _ _ _ _ _ => []
                     end) ps.

Definition times_predicted (ps : list period) (r : row) : nat :=
  length (filter (row_eqb r) (test_data ps)).

(** A recorded period is well split when its frames are the split of the
    table at its own bounds. *)
Definition well_split (df : list row) (hi T : Z) (p : period) : Prop :=
  match p with
  | Fit _ s e train test | Skip _ s e train test =>
      (train, test) = split_train_test_by_date df s e
      /\ (s < hi)%Z /\ e = Z.min (s + T) hi
  end.

(** Fifty games on day 0, one on day 90 and one on day 120. *)
Definition boundary_table : list row :=
  map (fun i => mkRow i 0) (seq 0 50) ++ [mkRow 50 90; mkRow 51 120].

End WalkForward.

(** ** data-collection/ratings_loader.py *)

Module Ratings.

(** A row of a ratings frame.  [AdjEM] is the column the match report looks
    at; [others] are the remaining rating columns. *)
Record rating := mkRating {
  team : string;
  rating_date : Z;
  AdjEM : cell;
  others : list cell
}.

Inductive mode := season_end | preseason_only | dated_snapshots.

(** The ratings file read for a season: rows without a usable
    [rating_date] (the plain snapshot file) or with one. *)
Inductive ratings_file :=
| Plain (rows : list (string * cell * list cell))
| Dated (rows : list rating).

(** What the loader and the attachment print. *)
Inductive message :=
| WarnSingleRatingDate
    (* WARNING: dated_snapshots mode but only 1 unique rating_date *)
| InfoDatedSnapshots (season : Z) (unique_dates : nat)
| InfoPreseasonOnly (season : Z) (preseason_date : Z)
| WarnSeasonEnd (season : Z) (season_start : Z)
    (* SEASON_END MODE ... This is LOOKAHEAD BIASED *)
| Summary (rows teams unique_dates : nat)
| MatchReport (matched total : nat)
| WarnUnmatched (teams : list string)
    (* Unmatched teams; the message shows the first five *).


Definition nunique_dates (l : list Z) : nat := length (nodup Z.eq_dec l).

Definition nunique_teams (l : list string) : nat :=
  length (nodup string_dec l).

Definition describe_ratings (df : list rating) : list message :=
  [ Summary (length df) (nunique_teams (map team df))
            (nunique_dates (map rating_date df)) ].

Definition preseason_dates (season : Z) : Z :=
  if (season =? 2022)%Z then days_from_civil 2021 11 1
  else if (season =? 2023)%Z then days_from_civil 2022 11 1
  else if (season =? 2024)%Z then days_from_civil 2023 11 1
  else if (season =? 2025)%Z then days_from_civil 2024 11 1
  else days_from_civil (season - 1) 11 1.

Definition season_start_dates (season : Z) : Z :=
  if (season =? 2022)%Z then days_from_civil 2021 11 9
  else if (season =? 2023)%Z then days_from_civil 2022 11 7
  else if (season =? 2024)%Z then days_from_civil 2023 11 6
  else if (season =? 2025)%Z then days_from_civil 2024 11 4
  else days_from_civil (season - 1) 11 6.

(** [df['rating_date'] = pd.to_datetime(d)]: one date for every row. *)
Definition set_rating_date (d : Z) (f : ratings_file) : list rating :=
  match f with
  | Plain rows =>
      map (fun r => mkRating (fst (fst r)) d (snd (fst r)) (snd r)) rows
  | Dated rows =>
      map (fun r => mkRating (team r) d (AdjEM r) (others r)) rows
  end.

(** [load_season_ratings].  [file] is the file the mode reads, if it
    exists.  The frame is returned with everything printed on the way. *)
Definition load_season_ratings (season : Z) (m : mode)
    (file : option ratings_file) : result (list rating * list message) :=
  match file with
  | None => Raise FileNotFoundError
  | Some f =>
      match m with
      | dated_snapshots =>
          match f with
          | Plain _ => Raise ValueError
          | Dated df =>
              let unique_dates := nunique_dates (map rating_date df) in
              let warn :=
                if Nat.eqb unique_dates 1 then [WarnSingleRatingDate]
                else [] in
              if Nat.eqb (nunique_teams (map team df)) 0
              then Raise ZeroDivisionError
              else Ok (df, warn ++ [InfoDatedSnapshots season unique_dates]
                            ++ describe_ratings df)
          end
      | preseason_only =>
          let preseason_date := preseason_dates season in
          let df := set_rating_date preseason_date f in
          Ok (df, [InfoPreseasonOnly season preseason_date]
                  ++ describe_ratings df)
      | season_end =>
          let season_start := season_start_dates season in
          let df := set_rating_date season_start f in
          Ok (df, [WarnSeasonEnd season season_start]
                  ++ describe_ratings df)
      end
  end.

(** [sort_values('rating_date', ascending=False)]; ratings of the same date
    are kept in input order here. *)
Fixpoint insert_desc (r : rating) (l : list rating) : list rating :=
  match l with
  | [] => [r]
  | h :: t =>
      if (rating_date h <=? rating_date r)%Z then r :: l
      else h :: insert_desc r t
  end.

Definition sort_desc (l : list rating) : list rating :=
  fold_right insert_desc [] l.

(** The body of the loop over the games (lines 255-280): the rating
    matched to one game, [None] for the row of nulls. *)
Definition match_rating (ratings_df : list rating) (team_name : string)
    (game_date : Z) : option rating :=
  let team_ratings :=
    filter (fun r => String.eqb (team r) team_name) ratings_df in
  match team_ratings with
  | [] => None
  | _ =>
      let available_ratings :=
        filter (fun r => (rating_date r <=? game_date)%Z) team_ratings in
      match sort_desc available_ratings with
      | [] => None
      | latest_rating :: _ => Some latest_rating
      end
  end.

(** What a game is matched with: the rating of the named team that is the
    latest among those dated on or before the game, and nothing when the
    team has no such rating. *)
Definition as_of (ratings_df : list rating) (name : string) (d : Z)
    (x : option rating) : Prop :=
  match x with
  | Some r =>
      In r ratings_df /\ team r = name /\ (rating_date r <= d)%Z
      /\ forall r', In r' ratings_df -> team r' = name ->
                    (rating_date r' <= d)%Z ->
                    (rating_date r' <= rating_date r)%Z
  | None =>
      forall r', In r' ratings_df -> team r' = name ->
                 ~ (rating_date r' <= d)%Z
  end.

Inductive side := home | away.

(** The columns of a games frame that the attachment reads. *)
Record games_cols (A : Type) := mkCols {
  col_date : A -> Z;
  col_home_team : A -> string;
  col_away_team : A -> string
}.
Arguments col_date {A}.
Arguments col_home_team {A}.
Arguments col_away_team {A}.

Section Attach.

(** [team_database.normalize_team_name], or its fallback. *)
Variable normalize_team_name : string -> string.

Context {A : Type} (cols : games_cols A).

Definition side_team (s : side) (team_col : option (A -> string))
  : A -> string :=
  match team_col with
  | Some c => c
  | None => match s with
            | home => col_home_team cols
            | away => col_away_team cols
            end
  end.

Definition notna_AdjEM (x : A * option rating) : bool :=
  match snd x with
  | Some r => notna (AdjEM r)
  | None => false
  end.

(** [attach_team_ratings]: every game row, in order, with the rating
    matched to it.  On a frame without rows no rating column comes into
    being and the match report fails with a KeyError. *)
Definition attach_team_ratings (games_df : list A)
    (ratings_df : list rating) (s : side)
    (team_col : option (A -> string))
  : result (list (A * option rating) * list message) :=
  let tc := side_team s team_col in
  let result_df :=
    map (fun game =>
           (game, match_rating ratings_df (normalize_team_name (tc game))
                               (col_date cols game)))
        games_df in
  match games_df with
  | [] => Raise KeyError
  | _ =>
      let total_games := length result_df in
      let matched_games := length (filter notna_AdjEM result_df) in
      let unmatched :=
        filter (fun x => negb (notna_AdjEM x)) result_df in
      Ok (result_df,
          MatchReport matched_games total_games ::
          (if Nat.ltb matched_games total_games
           then [WarnUnmatched
                   (nodup string_dec (map (fun x => tc (fst x)) unmatched))]
           else []))
  end.

End Attach.

(** A game of the schedule. *)
Record game := mkGame { date : Z; home_team : string; away_team : string }.

Definition game_cols : games_cols game :=
  mkCols game date home_team away_team.

(** The rating dates in use after an attachment. *)
Definition attached_dates {A} (rows : list (A * option rating)) : list Z :=
  flat_map (fun x => match snd x with
                     | Some r => [rating_date r]
                     | None => []
                     end) rows.

Definition sample_file : ratings_file :=
  Plain [ ("Duke"%string, Some (25 # 1), []);
          ("Kansas"%string, Some (21 # 1), []) ].



Definition sample_schedule : list game :=
  [ mkGame (days_from_civil 2024 3 1) "Duke" "Kansas" ].

End Ratings.

(** ** ml/experiments_ncaabb/backtest_odds_aware_policy.py *)

(** [a < b] on floats, as a boolean. *)
Definition Qltb (a b : Q) : bool := negb (Qle_bool b a).

Module OddsPolicy.

(** [decide_min_edge_for_odds]: the edge a band asks for, [None] for a
    band that is skipped. *)
Definition decide_min_edge_for_odds (american_odds : Q) (is_favorite : bool)
  : option Q :=
  if is_favorite then Some (15 # 100)
  else
    let odds := american_odds in
    if Qle_bool 100 odds && Qltb odds 120 then Some (15 # 100)
    else if Qle_bool 120 odds && Qltb odds 140 then Some (15 # 100)
    else if Qle_bool 140 odds && Qltb odds 160 then None
    else if Qle_bool 160 odds && Qltb odds 180 then Some (13 # 100)
    else if Qle_bool 180 odds && Qltb odds 200 then None
    else if Qle_bool 200 odds && Qltb odds 250 then Some 0
    else if Qle_bool 250 odds && Qltb odds 400 then None
    else if Qle_bool 400 odds then None
    else Some (15 # 100).

Inductive bet_side := home | away.

(** A row of the edges file: one game. *)
Record game_edges := mkGameEdges {
  home_ml : Q;
  away_ml : Q;
  edge_home : Q;
  edge_away : Q;
  home_won : bool
}.

(** A row of [bets_df]: one possible bet. *)
Record bet := mkBet {
  bet_on : bet_side;
  american_odds : Q;
  edge : Q;
  outcome : bool;
  is_favorite : bool
}.

(** [load_edges_data], after the file is read: two bets per game, with
    [is_favorite = american_odds < 0]. *)
Definition load_edges_data (df : list game_edges) : list bet :=
  flat_map (fun row =>
    [ mkBet home (home_ml row) (edge_home row) (home_won row)
            (Qltb (home_ml row) 0);
      mkBet away (away_ml row) (edge_away row) (negb (home_won row))
            (Qltb (away_ml row) 0) ]) df.

Record stats := mkStats {
  total_candidates : nat;
  filtered_longdogs : nat;
  filtered_death_valleys : nat;
  filtered_insufficient_edge : nat;
  qualified_bets : nat
}.

(** The branch the loop body of [apply_odds_aware_policy] takes. *)
Inductive verdict := Longdog | DeathValley | Qualified | InsufficientEdge.

Definition judge (row : bet) : verdict :=
  let odds := american_odds row in
  if Qle_bool 400 odds then Longdog
  else
    match decide_min_edge_for_odds odds (is_favorite row) with
    | None => DeathValley
    | Some required_edge =>
        if Qle_bool required_edge (edge row) then Qualified
        else InsufficientEdge
    end.

Definition count (v : verdict) (results : stats) : stats :=
  match v with
  | Longdog =>
      mkStats (total_candidates results) (S (filtered_longdogs results))
              (filtered_death_valleys results)
              (filtered_insufficient_edge results) (qualified_bets results)
  | DeathValley =>
      mkStats (total_candidates results) (filtered_longdogs results)
              (S (filtered_death_valleys results))
              (filtered_insufficient_edge results) (qualified_bets results)
  | Qualified =>
      mkStats (total_candidates results) (filtered_longdogs results)
              (filtered_death_valleys results)
              (filtered_insufficient_edge results)
              (S (qualified_bets results))
  | InsufficientEdge =>
      mkStats (total_candidates results) (filtered_longdogs results)
              (filtered_death_valleys results)
              (S (filtered_insufficient_edge results))
              (qualified_bets results)
  end.

(** [apply_odds_aware_policy]: the bets that pass, in order, and the
    counters. *)
Definition apply_odds_aware_policy (df : list bet) : list bet * stats :=
  fold_left
    (fun acc row =>
       let v := judge row in
       (match v with
        | Qualified => fst acc ++ [row]
        | _ => fst acc
        end, count v (snd acc)))
    df ([], mkStats (length df) 0 0 0 0).

(** One game: the home side at +150 with an edge of 0.50, the road side at
    -180 with an edge of -0.45. *)
Definition sample_edges : list game_edges :=
  [ mkGameEdges 150 (-180) (1 # 2) (-45 # 100) true ].

End OddsPolicy.

(** ** ml/ncaabb_variant_b_model.py: stake sizing *)

Module Kelly.
Import PrimFloat FloatOps SpecFloat.
#[local] Set Warnings "-inexact-float".

(** Stakes are sized in binary64 arithmetic, the float of Python and the
    float64 of numpy: [float] is such a number, with its signed zeros,
    infinities and NaN, every operation rounding to the nearest float, a
    tie going to the even one.  A literal such as [0.1] stands for the
    float nearest to it, as it does in Python. *)

(** The exact value of a finite float; [None] for an infinity and for NaN. *)
Definition float_value (x : float) : option Q :=
  match Prim2SF x with
  | S754_zero _ => Some 0
  | S754_finite s m e =>
      let n := if s then Z.neg m else Z.pos m in
      Some (if (0 <=? e)%Z then inject_Z (n * 2 ^ e)
            else n # Z.to_pos (2 ^ (- e)))
  | S754_infinity _ => None
  | S754_nan => None
  end.

(** The operands of the arithmetic.  [df.apply(..., axis=1)] hands each row
    over as a Series: its entries are numpy float64 scalars when every column
    of the frame is numeric, and Python floats when the frame also has
    columns of other types (the row is then an object Series).  Both compute
    in binary64; they differ in a division by zero, which gives an infinity
    or NaN (and a RuntimeWarning) in numpy and raises in Python. *)
Inductive scalars := numpy_float64 | python_float.

Definition bind {A B} (r : result A) (f : A -> result B) : result B :=
  match r with
  | Ok a => f a
  | Raise e => Raise e
  end.

(** [a / b]. *)
Definition divide (k : scalars) (a b : float) : result float :=
  match k with
  | numpy_float64 => Ok (a / b)%float
  | python_float =>
      if (b =? 0)%float then Raise ZeroDivisionError else Ok (a / b)%float
  end.

(** Python's [min(a, b)] and [max(a, b)]: the second argument is returned
    only when it compares strictly below (above) the first, so a NaN in
    first place is kept. *)
Definition py_min (a b : float) : float := if (b <? a)%float then b else a.
Definition py_max (a b : float) : float := if (a <? b)%float then b else a.

(** [calculate_kelly_stake]: (full_kelly, applied_kelly). *)
Definition calculate_kelly_stake (k : scalars)
    (edge odds_american kelly_fraction max_fraction : float)
  : result (float * float) :=
  bind (if (odds_american <? 0)%float
        then bind (divide k 100 (abs odds_american))
                  (fun q => Ok (1 + q)%float)
        else bind (divide k odds_american 100)
                  (fun q => Ok (1 + q)%float))
       (fun decimal_odds =>
  bind (divide k edge (decimal_odds - 1)%float) (fun full_kelly =>
  let applied_kelly := (full_kelly * kelly_fraction)%float in
  let applied_kelly := py_min applied_kelly max_fraction in
  let applied_kelly := py_max applied_kelly 0 in
  Ok (full_kelly, applied_kelly))).

(** The nearest whole number, a half going to the even neighbour. *)
Definition round_half_even (x : Q) : Z :=
  let f := Qfloor x in
  let r := x - inject_Z f in
  if Qltb r (1 # 2) then f
  else if Qltb (1 # 2) r then (f + 1)%Z
  else if Z.even f then f else (f + 1)%Z.

(** [Series.round(0)] on a float64 column is numpy's [rint]: the float is
    replaced by the whole number nearest to its exact value, halves to even
    (that whole number is itself a float); an infinity or NaN stays, for
    which [None] stands. *)
Definition rint (x : float) : option Z :=
  option_map round_half_even (float_value x).

Definition int64_min : Z := (- 2 ^ 63)%Z.
Definition int64_max : Z := (2 ^ 63 - 1)%Z.

(** The cast of a whole float64 to int64.  Out of the int64 range C leaves
    the result open; pandas silences numpy's warning, and the x86-64
    conversion gives the least int64. *)
Definition to_int64 (n : Z) : Z :=
  if ((int64_min <=? n) && (n <=? int64_max))%Z%bool then n else int64_min.

(** [Series.astype(int)] on a rounded float64 column: an infinity or NaN
    anywhere in the column raises (IntCastingNaNError, a ValueError). *)
Fixpoint astype_int (col : list (option Z)) : result (list Z) :=
  match col with
  | [] => Ok []
  | None :: _ => Raise ValueError
  | Some n :: rest => bind (astype_int rest) (fun ns => Ok (to_int64 n :: ns))
  end.

(** A row of the bets frame, and the row [add_kelly_stakes] makes of it. *)
Record bet := mkBet { max_edge : float; bet_odds : float }.

Record staked := mkStaked {
  source : bet;
  kelly_full : float;
  kelly_applied : float;
  bet_size_dollars : Z
}.

(** [df.apply(lambda row: calculate_kelly_stake(...), axis=1)]: the rows in
    order; the first exception ends the call.  (An empty frame comes back
    empty.) *)
Fixpoint kelly_results_of (k : scalars) (bets_df : list bet)
    (kelly_fraction max_fraction : float) : result (list (float * float)) :=
  match bets_df with
  | [] => Ok []
  | row :: rest =>
      bind (calculate_kelly_stake k (max_edge row) (bet_odds row)
                                  kelly_fraction max_fraction) (fun kr =>
      bind (kelly_results_of k rest kelly_fraction max_fraction) (fun krs =>
      Ok (kr :: krs)))
  end.

(** The frame with its three new columns. *)
Fixpoint with_columns (df : list bet) (full applied : list float)
    (dollars : list Z) : list staked :=
  match df, full, applied, dollars with
  | row :: df', f :: full', a :: applied', d :: dollars' =>
      mkStaked row f a d :: with_columns df' full' applied' dollars'
  | _, _, _, _ => []
  end.

(** [add_kelly_stakes].  The bankroll and the two fractions are Python
    numbers, taken here as floats. *)
Definition add_kelly_stakes (k : scalars) (bets_df : list bet)
    (bankroll kelly_fraction max_fraction : float) : result (list staked) :=
  bind (kelly_results_of k bets_df kelly_fraction max_fraction)
       (fun kelly_results =>
  let full := map fst kelly_results in
  let applied := map snd kelly_results in
  let dollars := map (fun a => (a * bankroll)%float) applied in
  bind (astype_int (map rint dollars)) (fun dollars =>
  Ok (with_columns bets_df full applied dollars))).

(** What [add_kelly_stakes] returns, row by row: the rows of the frame in
    order, each with the pair of [calculate_kelly_stake] and with the float
    product of applied fraction and bankroll, rounded and cast. *)
Definition sized (k : scalars) (bankroll kelly_fraction max_fraction : float)
    (row : bet) (s : staked) : Prop :=
  source s = row
  /\ calculate_kelly_stake k (max_edge row) (bet_odds row)
                           kelly_fraction max_fraction
     = Ok (kelly_full s, kelly_applied s)
  /\ exists n, rint (kelly_applied s * bankroll)%float = Some n
               /\ bet_size_dollars s = to_int64 n.

End Kelly.

(** ** ml/experiments_ncaabb/underdog_longdogs_calibration.py *)

Module Calibration.

(** A row of the longdog experiment file.  [outcome] is NaN for a game not
    played yet. *)
Record sample := mkSample {
  date : Z;
  model_prob : Q;
  outcome : option bool;
  american_odds : Q
}.

Fixpoint insert_by_date (x : sample) (l : list sample) : list sample :=
  match l with
  | [] => [x]
  | h :: t => if (date x <=? date h)%Z then x :: l else h :: insert_by_date x t
  end.

Definition sort_values (l : list sample) : list sample :=
  fold_right insert_by_date [] l.

(** [load_longdogs_data], after the file is read. *)
Definition load_longdogs_data (file : list sample) (min_odds max_odds : Q)
  : list sample :=
  let df :=
    filter (fun r => Qle_bool min_odds (american_odds r)
                     && Qle_bool (american_odds r) max_odds) file in
  let df :=
    filter (fun r => match outcome r with Some _ => true | None => false end)
           df in
  sort_values df.

(** [int(x)]: towards zero. *)
Definition py_int (x : Q) : Z :=
  if Qle_bool 0 x then Qfloor x else Qceiling x.

(** [df.iloc[:k]] and [df.iloc[k:]], a negative [k] counting from the end. *)
Definition iloc_to {A} (k : Z) (l : list A) : list A :=
  if (k <? 0)%Z then firstn (Z.to_nat (Z.of_nat (length l) + k)) l
  else firstn (Z.to_nat k) l.

Definition iloc_from {A} (k : Z) (l : list A) : list A :=
  if (k <? 0)%Z then skipn (Z.to_nat (Z.of_nat (length l) + k)) l
  else skipn (Z.to_nat k) l.

(** [split_by_date]. *)
Definition split_by_date (df : list sample) (test_ratio : Q)
  : list sample * list sample :=
  let split_idx :=
    py_int (inject_Z (Z.of_nat (length df)) * (1 - test_ratio)) in
  (iloc_to split_idx df, iloc_from split_idx df).

Section Main.

(** The two estimators, as the library provides them. *)
Variables platt isotonic : Type.
Variable fit_platt : list sample -> platt.
Variable fit_isotonic : list sample -> isotonic.

(** What a run of [main] does that can be seen from outside. *)
Inductive step :=
| InsufficientData (available : nat)
    (* Warning: Only n samples available; need at least 50 *)
| TrainedPlatt (train_df : list sample) (m : platt)
| TrainedIsotonic (train_df : list sample) (m : isotonic)
| Evaluated (train_df test_df : list sample)
| SavedModels (p : platt) (i : isotonic)
| Recommended.

(** [main], from the parsed arguments on. *)
Definition main (file : list sample) (min_odds max_odds test_ratio : Q)
    (save_model : bool) : list step :=
  let df := load_longdogs_data file min_odds max_odds in
  if Nat.ltb (length df) 50 then [InsufficientData (length df)]
  else
    let '(train_df, test_df) := split_by_date df test_ratio in
    let p := fit_platt train_df in
    let i := fit_isotonic train_df in
    [TrainedPlatt train_df p; TrainedIsotonic train_df i;
     Evaluated train_df test_df]
    ++ (if save_model then [SavedModels p i] else [])
    ++ [Recommended].

Definition makes_calibrator (s : step) : bool :=
  match s with
  | TrainedPlatt _ _ | TrainedIsotonic _ _ | SavedModels _ _ => true
  | _ => false
  end.

End Main.

Arguments InsufficientData {platt isotonic}.
Arguments TrainedPlatt {platt isotonic}.
Arguments TrainedIsotonic {platt isotonic}.
Arguments Evaluated {platt isotonic}.
Arguments SavedModels {platt isotonic}.
Arguments Recommended {platt isotonic}.
Arguments makes_calibrator {platt isotonic}.

(** Forty-nine settled longdogs at +500 and one game not yet played. *)
Definition scarce_file : list sample :=
  map (fun i => mkSample (Z.of_nat i) (1 # 5) (Some false) 500) (seq 0 49)
  ++ [mkSample 60 (1 # 5) None 500].

End Calibration.

(** ** ml/ncaabb_variant_b_model.py: prediction *)

Module Predict.

(** A games frame: its column names, and for each row the cell of every
    column.  Reading a column the frame does not have is a KeyError. *)
Record frame := mkFrame {
  columns : list string;
  rows : list (string -> cell)
}.

Definition has_column (df : frame) (c : string) : bool :=
  existsb (String.eqb c) (columns df).

(** [fillna(0)] on one cell. *)
Definition fillna0 (c : cell) : cell :=
  match c with
  | Some x => Some x
  | None => Some 0
  end.

(** [df[feature_cols].fillna(0)], row by row. *)
Definition prepare (df : frame) (feature_cols : list string)
  : result (list (list cell)) :=
  if forallb (has_column df) feature_cols
  then Ok (map (fun r => map (fun c => fillna0 (r c)) feature_cols) (rows df))
  else Raise KeyError.

Fixpoint all_some {A} (l : list (option A)) : option (list A) :=
  match l with
  | [] => Some []
  | Some x :: t => option_map (cons x) (all_some t)
  | None :: _ => None
  end.

Inductive chosen := home | away.

(** The columns [predict_variant_b] adds to a row. *)
Record scored := mkScored {
  game : string -> cell;
  model_prob_home : Q;
  model_prob_away : Q;
  edge_home : cell;
  edge_away : cell;
  max_edge : cell;
  chosen_side : chosen;
  bet_odds : cell;
  bet_prob : Q;
  bet_implied_prob : cell
}.

(** [df[['edge_home', 'edge_away']].max(axis=1)]: NaN entries are left
    out. *)
Definition row_max (a b : cell) : cell :=
  match a, b with
  | Some x, Some y => Some (if Qltb x y then y else x)
  | Some x, None => Some x
  | None, Some y => Some y
  | None, None => None
  end.

(** [a > b] and [a >= b] on cells; false when either is NaN. *)
Definition cell_gt (a b : cell) : bool :=
  match a, b with
  | Some x, Some y => Qltb y x
  | _, _ => false
  end.

Definition cell_ge (a b : cell) : bool :=
  match a, b with
  | Some x, Some y => Qle_bool y x
  | _, _ => false
  end.

Section Estimator.

(** The fitted model, one row at a time: [predict_proba(X)[:, 1]] and
    [predict(X)].  [None] is an exception, as the library raises on an
    input it does not accept. *)
Variable predict_proba : list cell -> option Q.
Variable predict : list cell -> option Q.

(** The optional scaler's [transform], one row at a time. *)
Variable scaler : option (list cell -> list cell).

Definition score_row (r : string -> cell) (p : Q) : scored :=
  let eh := lift2 Qminus (Some p) (r "home_implied_prob"%string) in
  let ea := lift2 Qminus (Some (1 - p)) (r "away_implied_prob"%string) in
  let side := if cell_gt eh ea then home else away in
  {| game := r;
     model_prob_home := p;
     model_prob_away := 1 - p;
     edge_home := eh;
     edge_away := ea;
     max_edge := row_max eh ea;
     chosen_side := side;
     bet_odds := match side with
                 | home => r "home_ml"%string
                 | away => r "away_ml"%string
                 end;
     bet_prob := match side with home => p | away => 1 - p end;
     bet_implied_prob := match side with
                         | home => r "home_implied_prob"%string
                         | away => r "away_implied_prob"%string
                         end |}.

(** What is handed to the model: the filled matrix, scaled if a scaler
    is given. *)
Definition model_input (X : list (list cell)) : list (list cell) :=
  match scaler with
  | Some transform => map transform X
  | None => X
  end.

(** The row the model is given for a game. *)
Definition input_of (feature_cols : list string) (r : string -> cell)
  : list cell :=
  let x := map (fun c => fillna0 (r c)) feature_cols in
  match scaler with
  | Some transform => transform x
  | None => x
  end.

(** Lines 209-258: every game of the frame with its probabilities and
    edges. *)
Definition score_games (games_df : frame) (feature_cols : list string)
  : result (list scored) :=
  match prepare games_df feature_cols with
  | Raise e => Raise e
  | Ok X =>
      let X' := model_input X in
      let probs :=
        match all_some (map predict_proba X') with
        | Some ps => Some ps
        | None => all_some (map predict X')
        end in
      match probs with
      | None => Raise ValueError
      | Some ps =>
          if forallb (has_column games_df)
               ["home_implied_prob"; "away_implied_prob";
                "home_ml"; "away_ml"]%string
          then Ok (map (fun rp => score_row (fst rp) (snd rp))
                       (combine (rows games_df) ps))
          else Raise KeyError
      end
  end.

(** [predict_variant_b]: the games whose best edge reaches [min_edge]. *)
Definition predict_variant_b (games_df : frame)
    (feature_cols : list string) (min_edge : Q) : result (list scored) :=
  match score_games games_df feature_cols with
  | Raise e => Raise e
  | Ok df =>
      Ok (filter (fun r => cell_ge (max_edge r) (Some min_edge)) df)
  end.

End Estimator.

(** A model accepts every row that holds no NaN. *)
Definition accepts_numbers (f : list cell -> option Q) : Prop :=
  forall x, forallb notna x = true -> exists p, f x = Some p.

(** A model in the manner of the library's estimators: it refuses a row
    holding NaN and otherwise answers with the first feature. *)
Definition strict_model (x : list cell) : option Q :=
  if forallb notna x
  then match x with Some p :: _ => Some p | _ => Some (1 # 2) end
  else None.

(** A first game of the season: odds known, no rolling history. *)
Definition opening_night : frame :=
  mkFrame ["home_implied_prob"; "away_implied_prob"; "home_ml"; "away_ml";
           "ORtg_L5_home"; "MoV_L5_home"]%string
    [ fun c =>
        if String.eqb c "home_implied_prob" then Some (60 # 100)
        else if String.eqb c "away_implied_prob" then Some (44 # 100)
        else if String.eqb c "home_ml" then Some (-150 # 1)
        else if String.eqb c "away_ml" then Some (130 # 1)
        else None ].

End Predict.

(** * Properties *)

(** ** Comparisons of floats *)

Lemma Qltb_lt a b : Qltb a b = true <-> a < b.
Proof.
  unfold Qltb. rewrite negb_true_iff. split.
  - intros H. apply Qnot_le_lt. intros Hle.
    apply Qle_bool_iff in Hle. congruence.
  - intros H. destruct (Qle_bool b a) eqn:E; [|reflexivity].
    apply Qle_bool_iff in E. exfalso. exact (Qlt_not_le _ _ H E).
Qed.

Lemma Qltb_ge a b : Qltb a b = false <-> b <= a.
Proof. unfold Qltb. rewrite negb_false_iff. apply Qle_bool_iff. Qed.

Lemma Qle_bool_false a b : Qle_bool a b = false <-> b < a.
Proof. rewrite <- Qltb_lt. unfold Qltb. now rewrite negb_true_iff. Qed.

Ltac by_order :=
  repeat match goal with
         | H : Qltb _ _ = true |- _ => apply Qltb_lt in H
         | H : Qltb _ _ = false |- _ => apply Qltb_ge in H
         | H : Qle_bool _ _ = true |- _ => apply Qle_bool_iff in H
         | H : Qle_bool _ _ = false |- _ => apply Qle_bool_false in H
         end;
  try lra.

Module RollingFacts.
Import Rolling.

Lemma sort_values_length l : length (sort_values l) = length l.
Proof.
  assert (H : forall g t, length (insert_by_date g t) = S (length t)).
  { intros g t. induction t as [|h t IH]; simpl; auto.
    destruct (date g <=? date h)%Z; simpl; auto. }
  induction l as [|g l IH]; simpl; auto. rewrite H. auto.
Qed.

Lemma roll_all_games has_fga l ws f :
  roll_all has_fga l ws = Some f ->
  games f = map (add_per_game has_fga) (sort_values l)
  /\ columns f = flat_map (window_columns (games f)) ws
  /\ Forall (fun w => (1 <= w)%Z) ws.
Proof.
  unfold roll_all. destruct (forallb _ ws) eqn:E; [|discriminate].
  intros H. injection H as <-. simpl. repeat split.
  rewrite forallb_forall in E. apply Forall_forall.
  intros w Hw. apply Z.leb_le. auto.
Qed.

(** The loop runs to completion exactly when every window is at least 1. *)
Lemma roll_all_total has_fga l ws :
  Forall (fun w => (1 <= w)%Z) ws ->
  exists f, roll_all has_fga l ws = Some f.
Proof.
  intros H. unfold roll_all.
  replace (forallb (fun w => (1 <=? w)%Z) ws) with true; eauto.
  symmetry. apply forallb_forall. rewrite Forall_forall in H.
  intros w Hw. apply Z.leb_le. auto.
Qed.

Lemma nanmean_present mp a b :
  present a = present b -> nanmean mp a = nanmean mp b.
Proof. unfold nanmean. intros ->. reflexivity. Qed.

Lemma rolling_mean_length w mp s :
  length (rolling_mean w mp s) = length s.
Proof. unfold rolling_mean. now rewrite length_map, length_seq. Qed.

Lemma rolling_mean_nth w mp s i :
  (i < length s)%nat ->
  nth_error (rolling_mean w mp s) i = Some (nanmean mp (window_at w i s)).
Proof.
  intros Hi. unfold rolling_mean.
  rewrite nth_error_map.
  replace (nth_error (seq 0 (length s)) i) with (Some i); [reflexivity|].
  symmetry. rewrite (nth_error_nth' _ 0%nat) by now rewrite length_seq.
  now rewrite seq_nth.
Qed.

Lemma shift1_length s : length (shift1 s) = length s.
Proof. unfold shift1. rewrite length_firstn. cbn [length]. lia. Qed.

(** The heart of the matter: a window of [w] rows of the shifted series
    ending at row [i] holds the NaN of row 0 or nothing, and then exactly
    the original rows [i - w .. i - 1]. *)
Lemma window_of_shift w i s :
  (1 <= w)%nat -> (i < length s)%nat ->
  present (window_at w i (shift1 s)) = present (obs_range (i - w) i s).
Proof.
  intros Hw Hi. unfold window_at, obs_range, shift1.
  rewrite firstn_firstn.
  replace (Nat.min (i + 1) (length s)) with (S i) by lia.
  simpl firstn.
  destruct (i + 1 - w)%nat as [|k] eqn:E.
  - replace (i - w)%nat with 0%nat by lia. reflexivity.
  - replace (i - w)%nat with k by lia. reflexivity.
Qed.

Lemma lookup_window_columns rows m w ws :
  In w ws ->
  lookup_col (m, w) (flat_map (window_columns rows) ws)
  = Some (rolling_col m (Z.to_nat w) rows).
Proof.
  induction ws as [|a ws IH]; [contradiction|].
  intros Hin. simpl flat_map.
  destruct (Z.eq_dec w a) as [->|Hne].
  - unfold window_columns. destruct m; simpl;
      unfold colkey_eqb; simpl; rewrite Z.eqb_refl; reflexivity.
  - assert (Hw : In w ws) by (destruct Hin; congruence).
    assert (Hf : (w =? a)%Z = false) by now apply Z.eqb_neq.
    unfold window_columns. simpl. unfold colkey_eqb. simpl. rewrite Hf.
    rewrite !andb_false_r. fold (colkey_eqb). apply IH, Hw.
Qed.

Lemma feature_at_window has_fga l ws f m w i :
  roll_all has_fga l ws = Some f ->
  In w ws -> (i < length l)%nat ->
  feature_at f m w i
  = Some (nanmean 1 (obs_range (i - Z.to_nat w) i
                               (map (metric_of m) (games f)))).
Proof.
  intros Hf Hw Hi.
  destruct (roll_all_games _ _ _ _ Hf) as (Hg & Hc & Hpos).
  unfold feature_at. rewrite Hc, (lookup_window_columns _ _ _ _ Hw).
  assert (Hlen : length (map (metric_of m) (games f)) = length l).
  { now rewrite Hg, !length_map, sort_values_length. }
  unfold rolling_col.
  rewrite rolling_mean_nth by (rewrite shift1_length; lia).
  f_equal. apply nanmean_present, window_of_shift; [|lia].
  rewrite Forall_forall in Hpos. specialize (Hpos _ Hw). lia.
Qed.

Lemma nanmean_numbers vals :
  vals <> [] ->
  nanmean 1 (map Some vals)
  = Some (Qsum vals / inject_Z (Z.of_nat (length vals))).
Proof.
  intros Hne. unfold nanmean.
  assert (Hp : present (map Some vals) = vals).
  { clear Hne. induction vals; simpl; congruence. }
  rewrite Hp. destruct vals; [congruence|reflexivity].
Qed.

Lemma in_combine_seq {A} (l : list A) s i r :
  In (i, r) (combine (seq s (length l)) l) <->
  (s <= i)%nat /\ nth_error l (i - s) = Some r.
Proof.
  revert s. induction l as [|a l IH]; intros s; simpl.
  - split; [contradiction|]. intros [_ H]. now destruct (i - s)%nat.
  - rewrite IH. split.
    + intros [H|[H1 H2]].
      * injection H as <- <-. split; [lia|]. now rewrite Nat.sub_diag.
      * split; [lia|]. replace (i - s)%nat with (S (i - S s)) by lia. auto.
    + intros [H1 H2]. destruct (Nat.eq_dec s i) as [->|Hne].
      * rewrite Nat.sub_diag in H2. simpl in H2. left. congruence.
      * right. split; [lia|].
        replace (i - s)%nat with (S (i - S s)) in H2 by lia. auto.
Qed.

Lemma matches_nonempty d right : matches d right <> [].
Proof. unfold matches. destruct (map snd _); discriminate. Qed.

Lemma in_merge_splits rows i r h a :
  In (i, r, h, a) (merge_splits rows) -> nth_error rows i = Some r.
Proof.
  unfold merge_splits. rewrite in_flat_map.
  intros ([[i' r'] h'] & Hin & Hm). rewrite in_map_iff in Hm.
  destruct Hm as (a' & Heq & _). simpl in Heq. injection Heq as -> -> -> ->.
  rewrite in_flat_map in Hin. destruct Hin as ([j q] & Hc & Hm).
  rewrite in_map_iff in Hm. destruct Hm as (h' & Heq & _).
  injection Heq as -> -> ->.
  apply in_combine_seq in Hc. destruct Hc as [_ Hc].
  now rewrite Nat.sub_0_r in Hc.
Qed.

Lemma merge_splits_covers rows i r :
  nth_error rows i = Some r ->
  exists h a, In (i, r, h, a) (merge_splits rows).
Proof.
  intros Hn. unfold merge_splits.
  destruct (matches (date (obs r)) (split_frame true rows)) as [|h hs] eqn:Eh;
    [now apply matches_nonempty in Eh|].
  destruct (matches (date (obs r)) (split_frame false rows)) as [|a zs] eqn:Ea;
    [now apply matches_nonempty in Ea|].
  exists h, a. rewrite in_flat_map. exists (i, r, h). split.
  - rewrite in_flat_map. exists (i, r). split.
    + apply in_combine_seq. rewrite Nat.sub_0_r. split; [lia|auto].
    + simpl. rewrite Eh. now left.
  - simpl. rewrite Ea. now left.
Qed.

Lemma in_number_rows cols l o :
  In o (number_rows cols l) <->
  exists k i r h a, In (k, (i, r, h, a)) (combine (seq 0 (length l)) l)
    /\ o = {| src := i; base := r; rolling := row_of_columns cols i;
              ORtg_at_home_L5 := fst h; DRtg_at_home_L5 := snd h;
              ORtg_on_road_L5 := fst a; DRtg_on_road_L5 := snd a;
              games_played := k |}.
Proof.
  unfold number_rows. rewrite in_map_iff. split.
  - intros ([k [[[i r] h] a]] & <- & Hin). now exists k, i, r, h, a.
  - intros (k & i & r & h & a & Hin & ->). now exists (k, (i, r, h, a)).
Qed.

Lemma in_with_position {A} (l : list A) x :
  In x l -> exists k, In (k, x) (combine (seq 0 (length l)) l).
Proof.
  intros Hin. apply In_nth_error in Hin. destruct Hin as [k Hk].
  exists k. apply in_combine_seq. rewrite Nat.sub_0_r. split; [lia|auto].
Qed.

(** Every row returned is a row of the rolled frame, at the position it
    records, and every row of the rolled frame is returned. *)
Lemma returned_rows has_fga has_is_home l ws f out :
  compute_team_rolling_stats has_fga has_is_home l ws = Some (f, out) ->
  roll_all has_fga l ws = Some f
  /\ (forall o, In o out ->
        nth_error (games f) (src o) = Some (base o)
        /\ rolling o = row_of_columns (columns f) (src o))
  /\ (forall i r, nth_error (games f) i = Some r ->
        exists o, In o out /\ src o = i /\ base o = r).
Proof.
  unfold compute_team_rolling_stats.
  destruct (roll_all has_fga l ws) as [g|] eqn:E; [|discriminate].
  intros H. injection H as <- <-. split; [reflexivity|]. split.
  - intros o Ho. apply in_number_rows in Ho.
    destruct Ho as (k & i & r & h & a & Hin & ->). simpl.
    split; [|reflexivity].
    apply in_combine_r in Hin. destruct has_is_home.
    + eapply in_merge_splits; eauto.
    + apply in_map_iff in Hin. destruct Hin as ([j q] & Heq & Hc).
      simpl in Heq. injection Heq as -> -> <- <-.
      apply in_combine_seq in Hc. now rewrite Nat.sub_0_r in Hc.
  - intros i r Hn.
    assert (Hm : exists h a, In (i, r, h, a)
              (if has_is_home then merge_splits (games g)
               else map (fun ir => (fst ir, snd ir, (None, None), (None, None)))
                      (combine (seq 0 (length (games g))) (games g)))).
    { destruct has_is_home.
      - now apply merge_splits_covers.
      - exists (None, None), (None, None). apply in_map_iff.
        exists (i, r). split; [reflexivity|].
        apply in_combine_seq. rewrite Nat.sub_0_r. split; [lia|auto]. }
    destruct Hm as (h & a & Hin).
    apply in_with_position in Hin. destruct Hin as [k Hk].
    eexists. split; [apply in_number_rows; now exists k, i, r, h, a|].
    split; reflexivity.
Qed.

(** The function returns a frame whenever every window is at least 1. *)
Lemma compute_total has_fga has_is_home l ws :
  Forall (fun w => (1 <= w)%Z) ws ->
  exists f out,
    compute_team_rolling_stats has_fga has_is_home l ws = Some (f, out).
Proof.
  intros H. destruct (roll_all_total has_fga l ws H) as [f Hf].
  unfold compute_team_rolling_stats. rewrite Hf. eauto.
Qed.

Lemma lookup_row_of_columns k cols i :
  lookup_cell k (row_of_columns cols i)
  = option_map (fun c => nth i c None) (lookup_col k cols).
Proof.
  induction cols as [|[k' c] cols IH]; simpl; [reflexivity|].
  destruct (colkey_eqb k k'); [reflexivity|exact IH].
Qed.

(** A returned row holds, in each rolling column, the value the rolled frame
    has at the row's position. *)
Lemma row_feature_at f o m w v :
  rolling o = row_of_columns (columns f) (src o) ->
  feature_at f m w (src o) = Some v ->
  row_feature o m w = Some v.
Proof.
  unfold row_feature, feature_at. intros -> H.
  rewrite lookup_row_of_columns.
  destruct (lookup_col (m, w) (columns f)) as [c|]; [|discriminate].
  simpl. f_equal. now apply nth_error_nth.
Qed.

Lemma sort_values_perm l : Permutation (sort_values l) l.
Proof.
  assert (Hins : forall g t, Permutation (insert_by_date g t) (g :: t)).
  { intros g t. induction t as [|h t IH]; simpl; [reflexivity|].
    destruct (date g <=? date h)%Z; [reflexivity|].
    rewrite IH. apply perm_swap. }
  induction l as [|g l IH]; simpl; [reflexivity|].
  rewrite Hins. now apply perm_skip.
Qed.

(** Positions are those of the date-sorted frame. *)
Lemma sort_values_sorted l :
  Sorted (fun a b => (date a <= date b)%Z) (sort_values l).
Proof.
  assert (Hins : forall g t,
    Sorted (fun a b => (date a <= date b)%Z) t ->
    Sorted (fun a b => (date a <= date b)%Z) (insert_by_date g t)).
  { intros g t Ht. induction Ht as [|h t Ht IH Hh]; simpl.
    - repeat constructor.
    - destruct (date g <=? date h)%Z eqn:E.
      + apply Z.leb_le in E. repeat constructor; auto.
      + apply Z.leb_gt in E. constructor; auto.
        destruct t as [|h' t']; simpl in *.
        * constructor. lia.
        * destruct (date g <=? date h')%Z; constructor;
            [lia | now inversion Hh]. }
  induction l; simpl; [constructor|auto].
Qed.

Lemma games_length has_fga l ws f :
  roll_all has_fga l ws = Some f -> length (games f) = length l.
Proof.
  intros H. destruct (roll_all_games _ _ _ _ H) as (Hg & _).
  now rewrite Hg, length_map, sort_values_length.
Qed.

Lemma prefix_features has_fga l l' ws f f' m w i :
  roll_all has_fga l ws = Some f ->
  roll_all has_fga l' ws = Some f' ->
  firstn i (sort_values l) = firstn i (sort_values l') ->
  (i < length l)%nat -> (i < length l')%nat -> In w ws ->
  feature_at f m w i = feature_at f' m w i.
Proof.
  intros Hf Hf' Hpre Hi Hi' Hw.
  rewrite (feature_at_window _ _ _ _ m w i Hf Hw Hi).
  rewrite (feature_at_window _ _ _ _ m w i Hf' Hw Hi').
  destruct (roll_all_games _ _ _ _ Hf) as (-> & _).
  destruct (roll_all_games _ _ _ _ Hf') as (-> & _).
  unfold obs_range. now rewrite !firstn_map, Hpre.
Qed.

(** C1.  In the frame [compute_team_rolling_stats] builds, the rows are the
    team's games in date order, and for every requested window [w], every
    metric (ORtg, DRtg, Pace, MoV, WinPct) and every row [i], the rolling
    column holds the mean of the per-game metric over the rows at positions
    [max(0, i - w) <= k < i] and no other row: the game at [i] is not part
    of it; each row returned holds these values of the row it was made
    from.  Hence the value at [i] is the same for any two inputs whose
    sorted frames agree on the rows before [i], whatever the rows from [i]
    on hold; and a team with two earlier games gets, for the window of 5,
    the mean of those two games. *)
Theorem C1_rolling_window_is_prior_rows
    has_fga has_is_home team_games windows f out :
  compute_team_rolling_stats has_fga has_is_home team_games windows
    = Some (f, out) ->
  games f = map (add_per_game has_fga) (sort_values team_games)
  /\ (forall m w i, In w windows -> (i < length team_games)%nat ->
        feature_at f m w i
        = Some (nanmean 1 (obs_range (i - Z.to_nat w) i
                                     (map (metric_of m) (games f))))
        /\ (forall vals,
              obs_range (i - Z.to_nat w) i (map (metric_of m) (games f))
                = map Some vals ->
              vals <> [] ->
              feature_at f m w i
              = Some (Some (Qsum vals / inject_Z (Z.of_nat (length vals))))))
  /\ (forall o m w, In o out -> In w windows ->
        nth_error (games f) (src o) = Some (base o)
        /\ row_feature o m w
           = Some (nanmean 1 (obs_range (src o - Z.to_nat w) (src o)
                                        (map (metric_of m) (games f)))))
  /\ (forall i r, nth_error (games f) i = Some r ->
        exists o, In o out /\ src o = i /\ base o = r)
  /\ (forall team_games' f' out' i m w,
        compute_team_rolling_stats has_fga has_is_home team_games' windows
          = Some (f', out') ->
        firstn i (sort_values team_games)
          = firstn i (sort_values team_games') ->
        (i < length team_games)%nat -> (i < length team_games')%nat ->
        In w windows ->
        feature_at f m w i = feature_at f' m w i)
  /\ (forall m r0 r1 r2 rest x0 x1,
        In 5%Z windows ->
        games f = r0 :: r1 :: r2 :: rest ->
        metric_of m r0 = Some x0 -> metric_of m r1 = Some x1 ->
        exists q, feature_at f m 5 2 = Some (Some q)
                  /\ q == (x0 + x1) / 2).
Proof.
  intros Hc. destruct (returned_rows _ _ _ _ _ _ Hc) as (Hf & Hsrc & Hcov).
  destruct (roll_all_games _ _ _ _ Hf) as (Hg & _).
  split; [exact Hg|]. split; [|split; [|split; [exact Hcov|split]]].
  - intros m w i Hw Hi.
    pose proof (feature_at_window _ _ _ _ m w i Hf Hw Hi) as Hwin.
    split; [exact Hwin|]. intros vals Hv Hne.
    now rewrite Hwin, Hv, nanmean_numbers.
  - intros o m w Ho Hw. destruct (Hsrc o Ho) as [Hbase Hroll].
    split; [exact Hbase|]. apply (row_feature_at f); [exact Hroll|].
    apply (feature_at_window _ _ _ _ m w (src o) Hf Hw).
    rewrite <- (games_length _ _ _ _ Hf).
    apply nth_error_Some. congruence.
  - intros l' f' out' i m w Hc' Hpre Hi Hi' Hw.
    destruct (returned_rows _ _ _ _ _ _ Hc') as (Hf' & _).
    eapply prefix_features; eauto.
  - intros m r0 r1 r2 rest x0 x1 H5 Hrows H0 H1.
    assert (Hlen : (2 < length team_games)%nat).
    { rewrite <- (games_length _ _ _ _ Hf), Hrows. simpl. lia. }
    rewrite (feature_at_window _ _ _ _ m 5%Z 2%nat Hf H5 Hlen).
    rewrite Hrows. change (Z.to_nat 5) with 5%nat.
    cbn [Nat.sub obs_range map firstn skipn].
    rewrite H0, H1. unfold nanmean.
    cbn [present length Nat.leb andb Qsum fold_right].
    eexists. split; [reflexivity|].
    change (inject_Z (Z.of_nat 2)) with (2 # 1). field.
Qed.

(** C7.  At a team's first game (row 0 of the date-sorted frame) every
    rolling column holds NaN, for every metric and every requested window;
    it never holds a number, so in particular never 0. *)
Theorem C7_first_game_is_missing
    has_fga has_is_home team_games windows f out m w :
  compute_team_rolling_stats has_fga has_is_home team_games windows
    = Some (f, out) ->
  team_games <> [] -> In w windows ->
  feature_at f m w 0 = Some None
  /\ (forall q, feature_at f m w 0 <> Some (Some q))
  /\ feature_at f m w 0 <> Some (Some 0)
  /\ (exists o, In o out /\ src o = 0%nat)
  /\ (forall o, In o out -> src o = 0%nat -> row_feature o m w = Some None).
Proof.
  intros Hc Hne Hw.
  destruct (returned_rows _ _ _ _ _ _ Hc) as (Hf & Hsrc & Hcov).
  assert (Hi : (0 < length team_games)%nat).
  { destruct team_games; [congruence|simpl; lia]. }
  assert (H0 : feature_at f m w 0 = Some None).
  { rewrite (feature_at_window _ _ _ _ m w 0%nat Hf Hw Hi).
    unfold obs_range. simpl firstn. now rewrite skipn_nil. }
  split; [exact H0|]. rewrite H0.
  split; [intros q; discriminate|]. split; [discriminate|]. split.
  - destruct (nth_error (games f) 0) as [r|] eqn:Er.
    + destruct (Hcov _ _ Er) as (o & Ho & Hs & _). eauto.
    + apply nth_error_None in Er.
      rewrite (games_length _ _ _ _ Hf) in Er. lia.
  - intros o Ho Hs. destruct (Hsrc o Ho) as [_ Hroll].
    apply (row_feature_at f); [exact Hroll|]. rewrite Hs.
    rewrite <- H0. reflexivity.
Qed.

Example sample_margin_L5 :
  option_map (fun fo => feature_at (fst fo) M_MoV 5 2)
    (compute_team_rolling_stats false true sample_games [3; 5; 10]%Z)
  = Some (Some (Some ((60 - 75 + (80 - 70 + 0)) / inject_Z 2))).
Proof. reflexivity. Qed.

Lemma C1_rolling_window_witness :
  exists f out,
    compute_team_rolling_stats false true sample_games [3; 5; 10]%Z
      = Some (f, out)
    /\ feature_at f M_WinPct 5 2
       = Some (nanmean 1 (obs_range (2 - Z.to_nat 5) 2
                                    (map (metric_of M_WinPct) (games f)))).
Proof.
  eexists. eexists. split; [reflexivity|].
  refine (proj1 (proj1 (proj2
    (C1_rolling_window_is_prior_rows false true sample_games [3; 5; 10]%Z
       _ _ eq_refl)) M_WinPct 5%Z 2%nat _ _)).
  - simpl. tauto.
  - simpl. lia.
Defined.

Lemma C7_first_game_witness :
  exists f out,
    compute_team_rolling_stats false true sample_games [3; 5; 10]%Z
      = Some (f, out)
    /\ feature_at f M_ORtg 3 0 = Some None.
Proof.
  eexists. eexists. split; [reflexivity|].
  refine (proj1 (C7_first_game_is_missing false true sample_games
                   [3; 5; 10]%Z _ _ M_ORtg 3%Z eq_refl _ _)).
  - discriminate.
  - simpl. tauto.
Defined.

End RollingFacts.

Module WalkForwardFacts.
Import WalkForward.

Lemma train_is_past df s e r :
  In r (fst (split_train_test_by_date df s e)) <->
  In r df /\ (date r < s)%Z.
Proof. simpl. rewrite filter_In, Z.ltb_lt. tauto. Qed.

Lemma test_is_closed_interval df s e r :
  In r (snd (split_train_test_by_date df s e)) <->
  In r df /\ (s <= date r <= e)%Z.
Proof. simpl. rewrite filter_In, andb_true_iff, !Z.leb_le. tauto. Qed.

(** Every period the loop records was split at its own start, whatever
    the number of passes made. *)
Lemma loop_periods fuel : forall df hi T cur n,
  Forall (well_split df hi T) (fst (loop fuel df hi T cur n)).
Proof.
  induction fuel as [|fuel IH]; intros df hi T cur n; simpl; [constructor|].
  destruct (cur <? hi)%Z eqn:Elt; [|constructor].
  apply Z.ltb_lt in Elt.
  destruct (Nat.eqb _ 0); [constructor|].
  specialize (IH df hi T (Z.min (cur + T) hi) (S n)).
  destruct (loop fuel df hi T (Z.min (cur + T) hi) (S n)) as [later fin].
  simpl in IH.
  destruct (Nat.ltb _ 50); simpl; constructor; auto; repeat split; auto.
Qed.

Lemma fit_calls_in ps s train :
  In (s, train) (fit_calls ps) <->
  exists n e test, In (Fit n s e train test) ps.
Proof.
  unfold fit_calls. rewrite in_flat_map. split.
  - intros ([n s' e tr te|n s' e tr te] & Hin & Hx); simpl in Hx;
      [|contradiction].
    destruct Hx as [Hx|[]]. injection Hx as -> ->. eauto.
  - intros (n & e & test & Hin). eexists. split; [exact Hin|]. now left.
Qed.

(** With a test window of at least one day the loop ends: each pass moves
    the start of the next period strictly towards [max_date]. *)
Lemma loop_finishes df hi T : (1 <= T)%Z ->
  forall fuel cur n,
    (Z.to_nat (hi - cur) < fuel)%nat ->
    snd (loop fuel df hi T cur n) = true.
Proof.
  intros HT. induction fuel as [|fuel IH]; intros cur n Hf; [lia|].
  simpl. destruct (cur <? hi)%Z eqn:Elt; [|reflexivity].
  apply Z.ltb_lt in Elt.
  destruct (Nat.eqb _ 0); [reflexivity|].
  specialize (IH (Z.min (cur + T) hi) (S n)).
  destruct (loop fuel df hi T (Z.min (cur + T) hi) (S n)) as [later fin].
  simpl in IH. destruct (Nat.ltb _ 50); simpl; apply IH; lia.
Qed.

Lemma walkforward_finishes df months T :
  (1 <= T)%Z -> exists fuel, snd (walkforward_backtest fuel df months T) = true.
Proof.
  intros HT. destruct df as [|r df].
  - exists 0%nat. reflexivity.
  - eexists (S (Z.to_nat _)). unfold walkforward_backtest.
    apply loop_finishes; [exact HT|]. apply Nat.lt_succ_diag_r.
Qed.

(** C2.  Whatever the table, the length of the initial training span and
    the test window, and however far the run gets, the frame passed to the
    estimators for a period starting at [start] holds exactly the rows of
    the table dated strictly before [start]: no row dated [start] or later
    is ever fitted on. *)
Theorem C2_fit_sees_only_the_past
    fuel df initial_train_months test_window_days start train :
  In (start, train)
     (fit_calls (fst (walkforward_backtest fuel df initial_train_months
                                           test_window_days))) ->
  (forall r, In r train <-> In r df /\ (date r < start)%Z)
  /\ Forall (fun r => ~ (start <= date r)%Z) train
  /\ train = filter (fun r => (date r <? start)%Z) df.
Proof.
  intros Hin. apply fit_calls_in in Hin. destruct Hin as (n & e & test & Hin).
  assert (Hw : well_split df
                 (match df with [] => 0%Z | r :: _ => max_date df (date r) end)
                 test_window_days (Fit n start e train test)).
  { unfold walkforward_backtest in Hin. destruct df as [|r0 df]; [contradiction|].
    pose proof (loop_periods fuel (r0 :: df) (max_date (r0 :: df) (date r0))
                  test_window_days
                  (min_date (r0 :: df) (date r0) + initial_train_months * 30)%Z
                  1%nat) as Hall.
    rewrite Forall_forall in Hall. exact (Hall _ Hin). }
  destruct Hw as (Hsplit & _ & _).
  assert (Htr : train = fst (split_train_test_by_date df start e))
    by now rewrite <- Hsplit.
  assert (Hiff : forall r, In r train <-> In r df /\ (date r < start)%Z).
  { intros r. rewrite Htr. apply train_is_past. }
  split; [exact Hiff|]. split; [|exact Htr].
  apply Forall_forall. intros r Hr. apply Hiff in Hr. lia.
Qed.

Lemma C2_fit_witness :
  exists train,
    In (90%Z, train) (fit_calls (fst (walkforward_backtest 5 boundary_table 2 30)))
    /\ Forall (fun r => ~ (90 <= date r)%Z) train.
Proof.
  eexists. split.
  - vm_compute. right. left. reflexivity.
  - refine (proj1 (proj2 (C2_fit_sees_only_the_past 5 boundary_table 2 30
                            90 _ _))).
    vm_compute. right. left. reflexivity.
Defined.

(** C3 (what the code does).  On the table with fifty games on day 0, one
    on day 90 and one on day 120, with two months of initial training and
    30-day windows, the run is complete after two periods, [60, 90] and
    [90, 120]; the game of day 90 belongs to the test frame of both, and
    so appears twice among the predictions. *)
Theorem C3_boundary_game_predicted_twice :
  let run := walkforward_backtest 5 boundary_table 2 30 in
  snd run = true
  /\ map (fun p => match p with
                   | Fit n s e _ test | Skip n s e _ test =>
                       (n, s, e, map event_id test)
                   end) (fst run)
     = [ (1%nat, 60%Z, 90%Z, [50%nat]); (2%nat, 90%Z, 120%Z, [50%nat; 51%nat]) ]
  /\ times_predicted (fst run) (mkRow 50 90) = 2%nat
  /\ In (mkRow 50 90)
        (snd (split_train_test_by_date boundary_table 60 90)).
Proof. vm_compute. repeat split; auto. Qed.

End WalkForwardFacts.

Module RatingsFacts.
Import Ratings.

Lemma in_insert_desc r l x : In x (insert_desc r l) <-> x = r \/ In x l.
Proof.
  induction l as [|h t IH]; simpl.
  - intuition.
  - destruct (rating_date h <=? rating_date r)%Z; simpl; rewrite ?IH;
      intuition.
Qed.

Lemma in_sort_desc l x : In x (sort_desc l) <-> In x l.
Proof.
  induction l as [|a l IH]; simpl; [tauto|].
  rewrite in_insert_desc, IH. intuition.
Qed.

Lemma sort_desc_sorted l :
  StronglySorted (fun a b => (rating_date b <= rating_date a)%Z)
                 (sort_desc l).
Proof.
  induction l as [|r l IH]; simpl; [constructor|].
  induction IH as [|h t Ht IHt Hh]; simpl.
  - repeat constructor.
  - destruct (rating_date h <=? rating_date r)%Z eqn:E.
    + apply Z.leb_le in E. constructor; [constructor; auto|].
      constructor; [exact E|].
      rewrite Forall_forall in *. intros x Hx. specialize (Hh x Hx). lia.
    + apply Z.leb_gt in E. constructor; [exact IHt|].
      apply Forall_forall. intros x Hx. apply in_insert_desc in Hx.
      destruct Hx as [->|Hx]; [lia|].
      rewrite Forall_forall in Hh. auto.
Qed.

Lemma match_rating_as_of ratings_df name d :
  as_of ratings_df name d (match_rating ratings_df name d).
Proof.
  unfold match_rating.
  set (tr := filter (fun r => String.eqb (team r) name) ratings_df).
  assert (Htr : forall r, In r tr <-> In r ratings_df /\ team r = name).
  { intros r. unfold tr. now rewrite filter_In, String.eqb_eq. }
  set (av := filter (fun r => (rating_date r <=? d)%Z) tr).
  assert (Hav : forall r, In r av <->
                          In r ratings_df /\ team r = name
                          /\ (rating_date r <= d)%Z).
  { intros r. unfold av. rewrite filter_In, Z.leb_le, Htr. tauto. }
  assert (Hnone : sort_desc av = [] -> as_of ratings_df name d None).
  { intros He r' Hin Hteam Hle.
    assert (Hr : In r' (sort_desc av)) by (apply in_sort_desc, Hav; auto).
    now rewrite He in Hr. }
  assert (Hsome : forall h t, sort_desc av = h :: t ->
                              as_of ratings_df name d (Some h)).
  { intros h t He.
    assert (Hh : In h av) by (apply in_sort_desc; rewrite He; now left).
    apply Hav in Hh. destruct Hh as (H1 & H2 & H3).
    repeat split; auto. intros r' Hin Hteam Hle.
    assert (Hr : In r' (sort_desc av)) by (apply in_sort_desc, Hav; auto).
    pose proof (sort_desc_sorted av) as Hs. rewrite He in Hs, Hr.
    destruct Hr as [<-|Hr]; [lia|].
    inversion Hs as [|? ? _ Hall]; subst.
    rewrite Forall_forall in Hall. auto. }
  destruct tr as [|r0 tr'] eqn:Etr.
  - intros r' Hin Hteam _.
    assert (Hr : In r' []) by (apply Htr; auto). exact Hr.
  - fold av. destruct (sort_desc av) as [|h t] eqn:Es; eauto.
Qed.

(** C4.  For either side and any choice of team column, the attachment
    returns the game rows unchanged and in order, none dropped; the rating
    put on a row belongs to the row's (normalised) team, is dated on or
    before the game, and no rating of that team dated on or before the
    game is later; and a row gets the nulls exactly when its team has no
    rating dated on or before the game, whatever later ratings exist. *)
Theorem C4_attach_latest_rating_as_of_game
    (normalize_team_name : string -> string) {A} (cols : games_cols A)
    (games_df : list A) (ratings_df : list rating) (s : side)
    (team_col : option (A -> string)) :
  games_df <> [] ->
  exists out log,
    attach_team_ratings normalize_team_name cols games_df ratings_df s
                        team_col = Ok (out, log)
    /\ map fst out = games_df
    /\ Forall (fun x =>
                 let name :=
                   normalize_team_name (side_team cols s team_col (fst x)) in
                 let game_date := col_date cols (fst x) in
                 as_of ratings_df name game_date (snd x)
                 /\ (snd x = None <->
                     forall r, In r ratings_df -> team r = name ->
                               ~ (rating_date r <= game_date)%Z)) out.
Proof.
  intros Hne. unfold attach_team_ratings.
  destruct games_df as [|g0 gs] eqn:Eg; [congruence|]. rewrite <- Eg.
  eexists. eexists. split; [reflexivity|]. split.
  - rewrite map_map. simpl. apply map_id.
  - apply Forall_forall. intros x Hx. apply in_map_iff in Hx.
    destruct Hx as (g & <- & _). cbn [fst snd].
    pose proof (match_rating_as_of ratings_df
                  (normalize_team_name (side_team cols s team_col g))
                  (col_date cols g)) as Has.
    split; [exact Has|].
    destruct (match_rating _ _ _) as [r|]; simpl in Has.
    + split; [discriminate|]. intros Hnone.
      destruct Has as (Hin & Hteam & Hle & _).
      exfalso. exact (Hnone r Hin Hteam Hle).
    + split; [intros _; exact Has|reflexivity].
Qed.

Lemma C4_attach_witness :
  exists out log,
    attach_team_ratings (fun n => n) game_cols sample_schedule
      [ mkRating "Duke" (days_from_civil 2023 11 6) (Some 20) [];
        mkRating "Duke" (days_from_civil 2024 2 1) (Some 25) [];
        mkRating "Duke" (days_from_civil 2024 3 9) (Some 30) [] ]
      home None = Ok (out, log)
    /\ map fst out = sample_schedule.
Proof.
  destruct (C4_attach_latest_rating_as_of_game (fun n => n) game_cols
              sample_schedule
              [ mkRating "Duke" (days_from_civil 2023 11 6) (Some 20) [];
                mkRating "Duke" (days_from_civil 2024 2 1) (Some 25) [];
                mkRating "Duke" (days_from_civil 2024 3 9) (Some 30) [] ]
              home None) as (out & log & H1 & H2 & _).
  - discriminate.
  - exists out, log. split; assumption.
Defined.

Example attach_picks_february :
  option_map rating_date
    (match_rating
       [ mkRating "Duke" (days_from_civil 2023 11 6) (Some 20) [];
         mkRating "Duke" (days_from_civil 2024 3 9) (Some 30) [];
         mkRating "Duke" (days_from_civil 2024 2 1) (Some 25) [] ]
       "Duke" (days_from_civil 2024 3 1))
  = Some (days_from_civil 2024 2 1).
Proof. reflexivity. Qed.






(** Scenario D in [season_end] mode: the 2024 file is stamped 2023-11-06,
    the game of 2024-03-01 is rated with it, and the loader has printed its
    lookahead warning, not the single-date one. *)
Example scenario_D_season_end :
  exists ratings log out alog,
    load_season_ratings 2024 season_end (Some sample_file)
      = Ok (ratings, log)
    /\ attach_team_ratings (fun n => n) game_cols sample_schedule ratings
                           home None = Ok (out, alog)
    /\ attached_dates out = [days_from_civil 2023 11 6]
    /\ In (WarnSeasonEnd 2024 (days_from_civil 2023 11 6)) log
    /\ ~ In WarnSingleRatingDate (log ++ alog).
Proof.
  do 4 eexists. split; [reflexivity|]. split; [reflexivity|].
  split; [reflexivity|]. split; [now left|].
  vm_compute. intuition discriminate.
Qed.

End RatingsFacts.

Module OddsPolicyFacts.
Import OddsPolicy.

Lemma band_true lo hi x :
  lo <= x -> x < hi -> Qle_bool lo x && Qltb x hi = true.
Proof.
  intros H1 H2. apply andb_true_iff. split.
  - now apply Qle_bool_iff.
  - now apply Qltb_lt.
Qed.

Lemma band_false_above lo hi x :
  hi <= x -> Qle_bool lo x && Qltb x hi = false.
Proof.
  intros H. apply andb_false_iff. right.
  destruct (Qltb x hi) eqn:E; [|reflexivity].
  apply Qltb_lt in E. exfalso. exact (Qlt_not_le _ _ E H).
Qed.

(** The bets kept are the rows judged [Qualified], in the order of the
    frame. *)
Lemma accepted_are_qualified df :
  fst (apply_odds_aware_policy df)
  = filter (fun row => match judge row with Qualified => true | _ => false end)
           df.
Proof.
  unfold apply_odds_aware_policy.
  generalize (mkStats (length df) 0 0 0 0).
  assert (H : forall l acc st,
    fst (fold_left
           (fun acc row =>
              let v := judge row in
              (match v with
               | Qualified => fst acc ++ [row]
               | _ => fst acc
               end, count v (snd acc)))
           l (acc, st))
    = acc ++ filter (fun row => match judge row with
                                | Qualified => true | _ => false end) l).
  { induction l as [|row l IH]; intros acc st; simpl.
    - now rewrite app_nil_r.
    - rewrite IH. destruct (judge row); simpl; auto.
      now rewrite <- app_assoc. }
  intros st. now rewrite H.
Qed.

Lemma judge_qualified row :
  judge row = Qualified <->
  american_odds row < 400
  /\ exists required_edge,
       decide_min_edge_for_odds (american_odds row) (is_favorite row)
         = Some required_edge
       /\ required_edge <= edge row.
Proof.
  unfold judge. destruct (Qle_bool 400 (american_odds row)) eqn:E400.
  - split; [discriminate|]. intros [Hlt _].
    apply Qle_bool_iff in E400. exfalso. exact (Qlt_not_le _ _ Hlt E400).
  - apply Qle_bool_false in E400.
    destruct (decide_min_edge_for_odds _ _) as [r|].
    + destruct (Qle_bool r (edge row)) eqn:Er.
      * apply Qle_bool_iff in Er. split; [|reflexivity].
        intros _. split; [exact E400|]. eauto.
      * split; [discriminate|]. intros (_ & r' & Hr' & Hle).
        injection Hr' as <-. apply Qle_bool_iff in Hle. congruence.
    + split; [discriminate|]. intros (_ & r' & Hr' & _). discriminate.
Qed.

Lemma built_flag games row :
  In row (load_edges_data games) ->
  is_favorite row = Qltb (american_odds row) 0.
Proof.
  unfold load_edges_data. rewrite in_flat_map.
  intros (g & _ & [<-|[<-|[]]]); reflexivity.
Qed.

Lemma in_accepted df row :
  In row (fst (apply_odds_aware_policy df)) <->
  In row df /\ judge row = Qualified.
Proof.
  rewrite accepted_are_qualified, filter_In.
  destruct (judge row); intuition discriminate.
Qed.

Lemma skip_at_150 x : x == 150 -> decide_min_edge_for_odds x false = None.
Proof.
  intros H. unfold decide_min_edge_for_odds.
  rewrite (band_false_above 100 120) by (rewrite H; discriminate).
  rewrite (band_false_above 120 140) by (rewrite H; discriminate).
  rewrite (band_true 140 160) by (rewrite H; reflexivity || discriminate).
  reflexivity.
Qed.

Lemma no_filter_200_250 x :
  200 <= x -> x < 250 -> decide_min_edge_for_odds x false = Some 0.
Proof.
  intros H1 H2. unfold decide_min_edge_for_odds.
  assert (Hge : forall c, c <= 200 -> c <= x)
    by (intros c Hc; eapply Qle_trans; eauto).
  rewrite (band_false_above 100 120) by (apply Hge; discriminate).
  rewrite (band_false_above 120 140) by (apply Hge; discriminate).
  rewrite (band_false_above 140 160) by (apply Hge; discriminate).
  rewrite (band_false_above 160 180) by (apply Hge; discriminate).
  rewrite (band_false_above 180 200) by (apply Hge; discriminate).
  now rewrite (band_true 200 250).
Qed.

Lemma underdog_flag x : 0 <= x -> Qltb x 0 = false.
Proof.
  intros H. destruct (Qltb x 0) eqn:E; [|reflexivity].
  apply Qltb_lt in E. exfalso. exact (Qlt_not_le _ _ E H).
Qed.

(** C5.  Of the bets built from the edges file, one priced below +400 is
    kept if and only if its band has a required edge (it is not a skipped
    band) and the bet's edge is at least that; a bet at +150 falls in a
    skipped band and is dropped whatever its edge; a bet priced in
    [+200, +250) with an edge of 0 or more is kept; and a bet at +400 or
    more is set aside as a longdog before the band table is consulted, and
    is never kept. *)
Theorem C5_policy_accepts_iff_band_and_edge games row :
  In row (load_edges_data games) ->
  let accepted := fst (apply_odds_aware_policy (load_edges_data games)) in
  (american_odds row < 400 ->
     (In row accepted <->
      exists required_edge,
        decide_min_edge_for_odds (american_odds row) (is_favorite row)
          = Some required_edge
        /\ required_edge <= edge row))
  /\ (american_odds row == 150 ->
        decide_min_edge_for_odds (american_odds row) (is_favorite row) = None
        /\ judge row = DeathValley /\ ~ In row accepted)
  /\ (200 <= american_odds row -> american_odds row < 250 ->
      0 <= edge row -> In row accepted)
  /\ (400 <= american_odds row -> judge row = Longdog /\ ~ In row accepted).
Proof.
  intros Hin accepted. unfold accepted. clear accepted.
  pose proof (built_flag _ _ Hin) as Hflag.
  split; [|split; [|split]].
  - intros Hlt. rewrite in_accepted, judge_qualified. tauto.
  - intros H150.
    assert (Hf : is_favorite row = false).
    { rewrite Hflag. apply underdog_flag. rewrite H150. discriminate. }
    assert (Hd : decide_min_edge_for_odds (american_odds row)
                   (is_favorite row) = None).
    { rewrite Hf. now apply skip_at_150. }
    assert (Hj : judge row = DeathValley).
    { unfold judge. rewrite Hd.
      replace (Qle_bool 400 (american_odds row)) with false; [reflexivity|].
      symmetry. apply Qle_bool_false. rewrite H150. reflexivity. }
    repeat split; auto. rewrite in_accepted. intros [_ H]. congruence.
  - intros H200 H250 Hedge.
    assert (Hf : is_favorite row = false).
    { rewrite Hflag. apply underdog_flag.
      eapply Qle_trans; [|exact H200]. discriminate. }
    apply in_accepted. split; [exact Hin|]. apply judge_qualified. split.
    + eapply Qlt_trans; [exact H250|reflexivity].
    + exists 0. rewrite Hf. split; [now apply no_filter_200_250|exact Hedge].
  - intros H400.
    assert (Hj : judge row = Longdog).
    { unfold judge. apply Qle_bool_iff in H400. now rewrite H400. }
    split; [exact Hj|]. rewrite in_accepted. intros [_ H]. congruence.
Qed.

Lemma C5_policy_witness :
  let row := mkBet home 150 (1 # 2) true false in
  In row (load_edges_data sample_edges)
  /\ ~ In row (fst (apply_odds_aware_policy (load_edges_data sample_edges))).
Proof.
  split.
  - left. reflexivity.
  - refine (proj2 (proj2 (proj1 (proj2
      (C5_policy_accepts_iff_band_and_edge sample_edges
         (mkBet home 150 (1 # 2) true false) _)) _))).
    + left. reflexivity.
    + reflexivity.
Defined.

Example scenario_A_band :
  decide_min_edge_for_odds 200 false = Some 0
  /\ judge (mkBet home 200 ((40 # 100) - 100 / 300) true false) = Qualified.
Proof. split; reflexivity. Qed.

End OddsPolicyFacts.

Module KellyFacts.
Import PrimFloat FloatOps SpecFloat.
Import Kelly.
#[local] Set Warnings "-inexact-float".

Lemma round_bounds x :
  (Qfloor x <= round_half_even x <= Qfloor x + 1)%Z.
Proof.
  unfold round_half_even.
  destruct (Qltb _ _); [lia|]. destruct (Qltb _ _); [lia|].
  destruct (Z.even _); lia.
Qed.

Lemma round_half_even_mono a b :
  a <= b -> (round_half_even a <= round_half_even b)%Z.
Proof.
  intros Hab.
  pose proof (Qfloor_resp_le _ _ Hab) as Hf.
  destruct (Z.eq_dec (Qfloor a) (Qfloor b)) as [He|Hne].
  - unfold round_half_even. rewrite He.
    destruct (Qltb (a - inject_Z (Qfloor b)) (1 # 2)) eqn:E1;
    destruct (Qltb (1 # 2) (a - inject_Z (Qfloor b))) eqn:E2;
    destruct (Qltb (b - inject_Z (Qfloor b)) (1 # 2)) eqn:E3;
    destruct (Qltb (1 # 2) (b - inject_Z (Qfloor b))) eqn:E4;
    destruct (Z.even (Qfloor b)); try lia; exfalso; by_order.
  - pose proof (round_bounds a). pose proof (round_bounds b). lia.
Qed.

(** Rounding moves an amount by half a unit at most, up or down. *)
Lemma round_half_even_near x :
  x - (1 # 2) <= inject_Z (round_half_even x) <= x + (1 # 2).
Proof.
  pose proof (Qfloor_le x) as Hlo. pose proof (Qlt_floor x) as Hhi.
  rewrite inject_Z_plus in Hhi. change (inject_Z 1) with 1 in Hhi.
  unfold round_half_even.
  destruct (Qltb (x - inject_Z (Qfloor x)) (1 # 2)) eqn:E1.
  { by_order. }
  destruct (Qltb (1 # 2) (x - inject_Z (Qfloor x))) eqn:E2.
  { rewrite inject_Z_plus. change (inject_Z 1) with 1. by_order. }
  destruct (Z.even (Qfloor x)).
  - by_order.
  - rewrite inject_Z_plus. change (inject_Z 1) with 1. by_order.
Qed.

(** The whole-dollar amount of a finite float stake is within half a dollar
    of the stake's exact value. *)
Lemma rint_near x q :
  float_value x = Some q ->
  exists n, rint x = Some n /\ q - (1 # 2) <= inject_Z n <= q + (1 # 2).
Proof.
  intros Hx. unfold rint. rewrite Hx. cbn [option_map].
  eexists. split; [reflexivity|]. apply round_half_even_near.
Qed.

(** Within the int64 range the cast keeps the whole number. *)
Lemma to_int64_in_range n :
  (int64_min <= n <= int64_max)%Z -> to_int64 n = n.
Proof.
  intros [Hlo Hhi]. unfold to_int64.
  apply Z.leb_le in Hlo. apply Z.leb_le in Hhi. now rewrite Hlo, Hhi.
Qed.

(** The applied fraction is the scaled full Kelly fraction, the cap or 0. *)
Lemma applied_kelly_cases k edge odds kelly_fraction max_fraction full applied :
  calculate_kelly_stake k edge odds kelly_fraction max_fraction
    = Ok (full, applied) ->
  applied = (full * kelly_fraction)%float
  \/ applied = max_fraction \/ applied = 0%float.
Proof.
  unfold calculate_kelly_stake, bind. intros H.
  destruct (if (odds <? 0)%float then _ else _) as [decimal_odds|]; [|discriminate].
  destruct (divide k edge _) as [f|]; [|discriminate].
  injection H as <- <-. unfold py_max, py_min.
  destruct (_ <? 0)%float; [now right; right|].
  destruct (max_fraction <? _)%float; [now right; left|now left].
Qed.

(** With numpy scalars no row raises. *)
Lemma numpy_rows_do_not_raise edge odds kelly_fraction max_fraction :
  exists full applied,
    calculate_kelly_stake numpy_float64 edge odds kelly_fraction max_fraction
    = Ok (full, applied).
Proof.
  unfold calculate_kelly_stake, divide, bind.
  destruct (odds <? 0)%float; do 2 eexists; reflexivity.
Qed.

Lemma kelly_results_of_rows k df kelly_fraction max_fraction krs :
  kelly_results_of k df kelly_fraction max_fraction = Ok krs ->
  Forall2 (fun row kr =>
             calculate_kelly_stake k (max_edge row) (bet_odds row)
                                   kelly_fraction max_fraction = Ok kr)
          df krs.
Proof.
  revert krs. induction df as [|row rest IH]; intros krs H; cbn in H.
  - injection H as <-. constructor.
  - destruct (calculate_kelly_stake _ _ _ _ _) as [kr|] eqn:E;
      [|discriminate].
    cbn in H.
    destruct (kelly_results_of _ _ _ _) as [krs'|]; [|discriminate].
    cbn in H. injection H as <-. constructor; [exact E|now apply IH].
Qed.

Lemma astype_int_rows col ns :
  astype_int col = Ok ns ->
  Forall2 (fun c z => exists n, c = Some n /\ z = to_int64 n) col ns.
Proof.
  revert ns. induction col as [|c rest IH]; intros ns H; cbn in H.
  - injection H as <-. constructor.
  - destruct c as [n|]; [|discriminate].
    destruct (astype_int rest) as [ns'|]; [|discriminate].
    cbn in H. injection H as <-. constructor; [now exists n|now apply IH].
Qed.

Lemma add_kelly_stakes_rows k df bankroll kelly_fraction max_fraction out :
  add_kelly_stakes k df bankroll kelly_fraction max_fraction = Ok out ->
  Forall2 (sized k bankroll kelly_fraction max_fraction) df out.
Proof.
  unfold add_kelly_stakes. intros H.
  destruct (kelly_results_of _ _ _ _) as [krs|] eqn:Ek; [|discriminate].
  cbn [bind] in H.
  destruct (astype_int _) as [ns|] eqn:En; [|discriminate].
  cbn [bind] in H. injection H as <-.
  apply kelly_results_of_rows in Ek. apply astype_int_rows in En.
  revert ns En. induction Ek as [|row [full applied] rest krs Hrow Hrest IH];
    intros ns En.
  - constructor.
  - cbn in En. inversion En as [|c z cs zs (n & Hc & Hz) Htail]; subst.
    cbn. constructor; [|now apply IH].
    split; [reflexivity|]. split; [exact Hrow|]. now exists n.
Qed.

(** No row is dropped or added. *)
Lemma add_kelly_stakes_keeps_rows
    k df bankroll kelly_fraction max_fraction out :
  add_kelly_stakes k df bankroll kelly_fraction max_fraction = Ok out ->
  map source out = df.
Proof.
  intros H. apply add_kelly_stakes_rows in H.
  induction H as [|row s rest out' (Hs & _) _ IH]; [reflexivity|].
  cbn. now rewrite Hs, IH.
Qed.

(** A returned stake that fits int64 is within half a dollar of the exact
    value of the float product of applied fraction and bankroll. *)
Lemma returned_stake_near_float_product
    k df bankroll kelly_fraction max_fraction out s :
  add_kelly_stakes k df bankroll kelly_fraction max_fraction = Ok out ->
  In s out ->
  exists q n,
    float_value (kelly_applied s * bankroll)%float = Some q
    /\ q - (1 # 2) <= inject_Z n <= q + (1 # 2)
    /\ bet_size_dollars s = to_int64 n
    /\ ((int64_min <= n <= int64_max)%Z -> bet_size_dollars s = n).
Proof.
  intros H Hin. apply add_kelly_stakes_rows in H.
  induction H as [|row s' rest out' Hs _ IH]; [contradiction|].
  destruct Hin as [<-|Hin]; [|now apply IH].
  destruct Hs as (_ & _ & n & Hn & Hd).
  unfold rint in Hn.
  destruct (float_value _) as [q|] eqn:Eq; [|discriminate].
  cbn in Hn. injection Hn as <-.
  exists q, (round_half_even q). split; [reflexivity|].
  split; [apply round_half_even_near|]. split; [exact Hd|].
  intros Hr. rewrite Hd. now apply to_int64_in_range.
Qed.

(** C6 (the stake against the documented cap).  The claim, like the
    docstring's "Maximum bankroll fraction per bet", bounds the stake by
    max_fraction * bankroll.  One bet at -150 with an edge of 0.30, sized on
    a bankroll of 1006 at quarter Kelly under the 10% cap: the full Kelly
    fraction is 0.45000000000000007, the applied fraction is held at the
    cap, the float stake 0.1 * 1006 = 100.60000000000001 is rounded to the
    nearest dollar, and the frame carries a stake of 101 dollars.  That is
    more than the float product of cap and bankroll, more than the exact
    product of the two floats, and more than 10% of 1006. *)
Theorem C6_dollar_stake_exceeds_bankroll_cap :
  forall k,
    add_kelly_stakes k [mkBet 0.3 (-150)] 1006 0.25 0.1
    = Ok [mkStaked (mkBet 0.3 (-150)) 0.45000000000000007 0.1 101]
    /\ (0.1 * 1006)%float = 100.60000000000001%float
    /\ (0.1 * 1006 <? 101)%float = true
    /\ (exists c b,
          float_value 0.1 = Some c /\ float_value 1006 = Some b
          /\ c * b < 101)
    /\ (1 # 10) * 1006 < 101.
Proof.
  intros k. split; [destruct k; vm_compute; reflexivity|].
  split; [vm_compute; reflexivity|].
  split; [vm_compute; reflexivity|].
  split; [|reflexivity].
  do 2 eexists. split; [vm_compute; reflexivity|].
  split; [vm_compute; reflexivity|]. reflexivity.
Qed.

(** The stake is rounded from the float product, not from the product of
    the decimal figures: a cap of 0.07 on a bankroll of 350 gives
    24.500000000000004 and a stake of 25, a cap of 0.575 on a bankroll of
    100 gives 57.499999999999993 and a stake of 57. *)
Example float_product_is_what_is_rounded :
  (0.07 * 350)%float = 24.500000000000004%float
  /\ add_kelly_stakes numpy_float64 [mkBet 0.5 100] 350 0.25 0.07
     = Ok [mkStaked (mkBet 0.5 100) 0.5 0.07 25]
  /\ (0.575 * 100)%float = 57.499999999999993%float
  /\ add_kelly_stakes numpy_float64 [mkBet 5 100] 100 0.25 0.575
     = Ok [mkStaked (mkBet 5 100) 5 0.575 57].
Proof. repeat split; vm_compute; reflexivity. Qed.

(** An exact half goes to the even dollar: 2.5 gives 2, 3.5 gives 4. *)
Example half_dollars_go_to_even :
  add_kelly_stakes numpy_float64 [mkBet 0.02 200; mkBet 0.028 200]
                   1000 0.25 0.1
  = Ok [mkStaked (mkBet 0.02 200) 0.01 0.0025 2;
        mkStaked (mkBet 0.028 200) 0.014 0.0035 4].
Proof. vm_compute. reflexivity. Qed.

(** A stake beyond the int64 range comes out as the least int64: with a
    bankroll of 1e20 a capped bet is sized at 1e19 dollars and stored as
    -9223372036854775808, while a bet with a small edge keeps its size. *)
Example stake_beyond_int64 :
  add_kelly_stakes numpy_float64 [mkBet 0.0001 100; mkBet 0.5 100]
                   1e20 0.25 0.1
  = Ok [mkStaked (mkBet 0.0001 100) 0.0001 0.000025 2500000000000000;
        mkStaked (mkBet 0.5 100) 0.5 0.1 int64_min].
Proof. vm_compute. reflexivity. Qed.

(** Odds of 0.  With numpy scalars the full Kelly fraction is an infinity
    or NaN: a positive edge is sized at the cap, a negative edge at 0, and
    an edge of 0 gives a NaN stake, on which the cast to int raises.  With
    Python floats the division raises. *)
Example odds_of_zero :
  add_kelly_stakes numpy_float64 [mkBet 0.5 0] 1000 0.25 0.1
  = Ok [mkStaked (mkBet 0.5 0) infinity 0.1 100]
  /\ add_kelly_stakes numpy_float64 [mkBet (-0.5) 0] 1000 0.25 0.1
     = Ok [mkStaked (mkBet (-0.5) 0) neg_infinity 0 0]
  /\ add_kelly_stakes numpy_float64 [mkBet 0 0] 1000 0.25 0.1
     = Raise ValueError
  /\ add_kelly_stakes python_float [mkBet 0.5 0] 1000 0.25 0.1
     = Raise ZeroDivisionError.
Proof. repeat split; vm_compute; reflexivity. Qed.

(** Scenario A: +200 with a model probability of 0.40; the edge is about
    0.067, the full Kelly fraction half of it and the quarter-Kelly fraction
    about 0.0083, which is 8 dollars on a bankroll of 1000. *)
Example scenario_A_quarter_kelly :
  forall k,
    add_kelly_stakes k [mkBet (0.4 - 100 / 300) 200] 1000 0.25 0.1
    = Ok [mkStaked (mkBet 0.066666666666666707 200)
                   0.033333333333333354 0.0083333333333333384 8].
Proof. intros k. destruct k; vm_compute; reflexivity. Qed.

(** A zero or negative edge is sized at 0. *)
Example no_stake_without_edge :
  forall k,
    add_kelly_stakes k [mkBet 0 200; mkBet (-0.1) (-150)] 1000 0.25 0.1
    = Ok [mkStaked (mkBet 0 200) 0 0 0;
          mkStaked (mkBet (-0.1) (-150)) (-0.15000000000000005) 0 0].
Proof. intros k. destruct k; vm_compute; reflexivity. Qed.

End KellyFacts.

Module CalibrationFacts.
Import Calibration.

Section Main.
Variables platt isotonic : Type.
Variable fit_platt : list sample -> platt.
Variable fit_isotonic : list sample -> isotonic.

(** C8.  When fewer than 50 samples are left after keeping the odds
    range and the rows with a known outcome, [main] reports the number
    of samples as insufficient and does nothing else: neither mapping is
    fitted and nothing is saved.  (With 50 samples or more both are
    fitted, on the training part of the split.) *)
Theorem C8_too_few_samples_no_calibrator
    file min_odds max_odds test_ratio save_model :
  (length (load_longdogs_data file min_odds max_odds) < 50)%nat ->
  main platt isotonic fit_platt fit_isotonic file min_odds max_odds
       test_ratio save_model
  = [InsufficientData (length (load_longdogs_data file min_odds max_odds))]
  /\ existsb makes_calibrator
       (main platt isotonic fit_platt fit_isotonic file min_odds max_odds
             test_ratio save_model) = false
  /\ (forall train m,
        ~ In (TrainedPlatt train m)
             (main platt isotonic fit_platt fit_isotonic file min_odds
                   max_odds test_ratio save_model))
  /\ (forall train m,
        ~ In (TrainedIsotonic train m)
             (main platt isotonic fit_platt fit_isotonic file min_odds
                   max_odds test_ratio save_model)).
Proof.
  intros Hlt. unfold main.
  apply Nat.ltb_lt in Hlt. rewrite Hlt.
  repeat split; try reflexivity; intros train m [H|[]]; discriminate.
Qed.

Lemma enough_samples_both_fitted
    file min_odds max_odds test_ratio save_model :
  (50 <= length (load_longdogs_data file min_odds max_odds))%nat ->
  let df := load_longdogs_data file min_odds max_odds in
  let train := fst (split_by_date df test_ratio) in
  In (TrainedPlatt train (fit_platt train))
     (main platt isotonic fit_platt fit_isotonic file min_odds max_odds
           test_ratio save_model)
  /\ In (TrainedIsotonic train (fit_isotonic train))
        (main platt isotonic fit_platt fit_isotonic file min_odds max_odds
              test_ratio save_model).
Proof.
  intros Hge df train. unfold main. fold df.
  replace (Nat.ltb (length df) 50) with false
    by (symmetry; apply Nat.ltb_ge; exact Hge).
  unfold train. destruct (split_by_date df test_ratio) as [tr te]. simpl.
  split; [now left|right; now left].
Qed.

End Main.

Lemma C8_too_few_samples_witness :
  main unit unit (fun _ => tt) (fun _ => tt) scarce_file 400 2000 (1 # 5) true
  = [InsufficientData 49].
Proof.
  refine (proj1 (C8_too_few_samples_no_calibrator unit unit (fun _ => tt)
                   (fun _ => tt) scarce_file 400 2000 (1 # 5) true _)).
  vm_compute. lia.
Defined.

End CalibrationFacts.

Module PredictFacts.
Import Predict.

Lemma all_some_spec {A} (l : list (option A)) ps :
  all_some l = Some ps <-> l = map Some ps.
Proof.
  revert ps. induction l as [|[x|] l IH]; intros ps; simpl.
  - split.
    + intros H. injection H as <-. reflexivity.
    + destruct ps; [reflexivity|discriminate].
  - destruct (all_some l) as [qs|] eqn:E; simpl.
    + split.
      * intros H. injection H as <-. simpl. f_equal. now apply IH.
      * destruct ps as [|p ps]; [discriminate|]. simpl. intros H.
        injection H as -> H. apply IH in H. congruence.
    + split; [discriminate|].
      destruct ps as [|p ps]; [discriminate|]. simpl. intros H.
      injection H as -> H. apply IH in H. discriminate.
  - split; [discriminate|]. destruct ps; discriminate.
Qed.

Lemma all_some_total {A B} (f : A -> option B) (l : list A) :
  (forall x, In x l -> exists y, f x = Some y) ->
  exists ps, all_some (map f l) = Some ps.
Proof.
  induction l as [|a l IH]; intros H; simpl.
  - eauto.
  - destruct (H a (or_introl eq_refl)) as [y ->].
    destruct IH as [ps ->]; [intros x Hx; apply H; now right|].
    simpl. eauto.
Qed.

Lemma fillna0_notna c : notna (fillna0 c) = true.
Proof. now destruct c. Qed.

Lemma fillna0_idem c : fillna0 (fillna0 c) = fillna0 c.
Proof. now destruct c. Qed.

Lemma map_fst_combine {A B} (l : list A) (l' : list B) :
  length l = length l' -> map fst (combine l l') = l.
Proof.
  revert l'. induction l as [|a l IH]; intros [|b l'] H; simpl in *;
    try discriminate; [reflexivity|]. f_equal. apply IH. lia.
Qed.

Section Estimator.
Variable predict_proba : list cell -> option Q.
Variable predict : list cell -> option Q.
Variable scaler : option (list cell -> list cell).

Hypothesis model_accepts :
  accepts_numbers predict_proba \/ accepts_numbers predict.
Hypothesis scaler_keeps_numbers :
  forall transform x,
    scaler = Some transform -> forallb notna x = true ->
    forallb notna (transform x) = true.

Lemma model_input_rows X :
  model_input scaler X
  = map (fun x => match scaler with
                  | Some transform => transform x
                  | None => x
                  end) X.
Proof.
  unfold model_input. destruct scaler; [reflexivity|].
  symmetry. apply map_id.
Qed.

(** C10.  For a frame that has the feature columns and the odds and
    implied-probability columns: the matrix prepared for the model holds
    the number 0 in place of every NaN and the original numbers
    elsewhere, so it is the matrix of the frame in which the absent
    values are 0 and it holds no NaN; no NaN reaches the model; and
    every game of the frame, in order, is given a home probability by
    the model on its filled row, and an edge on each side whenever the
    implied probability is a number.  The bets returned are the scored
    games whose best edge reaches [min_edge]. *)
Theorem C10_missing_features_scored_as_zero
    games_df feature_cols min_edge :
  forallb (has_column games_df) feature_cols = true ->
  forallb (has_column games_df)
    ["home_implied_prob"; "away_implied_prob"; "home_ml"; "away_ml"]%string
    = true ->
  exists X df,
    prepare games_df feature_cols = Ok X
    /\ X = map (fun r => map (fun c => match r c with
                                       | Some v => Some v
                                       | None => Some 0
                                       end) feature_cols) (rows games_df)
    /\ prepare (mkFrame (columns games_df)
                        (map (fun r c => fillna0 (r c)) (rows games_df)))
               feature_cols = Ok X
    /\ Forall (fun x => forallb notna x = true) X
    /\ Forall (fun x => forallb notna x = true) (model_input scaler X)
    /\ score_games predict_proba predict scaler games_df feature_cols
       = Ok df
    /\ map game df = rows games_df
    /\ Forall (fun s =>
         (predict_proba (input_of scaler feature_cols (game s))
            = Some (model_prob_home s)
          \/ predict (input_of scaler feature_cols (game s))
             = Some (model_prob_home s))
         /\ (forall q, game s "home_implied_prob"%string = Some q ->
               edge_home s = Some (model_prob_home s - q))
         /\ (forall q, game s "away_implied_prob"%string = Some q ->
               edge_away s = Some (1 - model_prob_home s - q))) df
    /\ predict_variant_b predict_proba predict scaler games_df
                         feature_cols min_edge
       = Ok (filter (fun r => cell_ge (max_edge r) (Some min_edge)) df).
Proof.
  intros Hcols Hnamed.
  set (X := map (fun r => map (fun c => fillna0 (r c)) feature_cols)
                (rows games_df)).
  assert (HX : prepare games_df feature_cols = Ok X).
  { unfold prepare. now rewrite Hcols. }
  assert (Hnum : Forall (fun x => forallb notna x = true) X).
  { apply Forall_forall. intros x Hx. apply in_map_iff in Hx.
    destruct Hx as (r & <- & _). apply forallb_forall.
    intros c Hc. apply in_map_iff in Hc. destruct Hc as (n & <- & _).
    apply fillna0_notna. }
  assert (Hnum' : Forall (fun x => forallb notna x = true)
                         (model_input scaler X)).
  { unfold model_input. destruct scaler as [t|] eqn:Es; [|exact Hnum].
    rewrite Forall_forall in *. intros x Hx. apply in_map_iff in Hx.
    destruct Hx as (y & <- & Hy). eapply scaler_keeps_numbers; eauto. }
  assert (Hps : exists ps,
             match all_some (map predict_proba (model_input scaler X)) with
             | Some ps => Some ps
             | None => all_some (map predict (model_input scaler X))
             end = Some ps
             /\ Forall2 (fun x p => predict_proba x = Some p
                                    \/ predict x = Some p)
                        (model_input scaler X) ps).
  { assert (Hf2 : forall (f : list cell -> option Q) l ps,
              all_some (map f l) = Some ps ->
              Forall2 (fun x p => f x = Some p) l ps).
    { intros f l. induction l as [|a l IH]; intros ps H.
      - apply all_some_spec in H. destruct ps; [constructor|discriminate].
      - apply all_some_spec in H. destruct ps as [|p ps]; [discriminate|].
        simpl in H. injection H as Ha Hl. constructor; [exact Ha|].
        apply IH. now apply all_some_spec. }
    destruct (all_some (map predict_proba (model_input scaler X)))
      as [ps|] eqn:E1.
    - exists ps. split; [reflexivity|].
      eapply Forall2_impl; [|apply Hf2, E1]. intros; now left.
    - destruct model_accepts as [Hacc|Hacc].
      + destruct (all_some_total predict_proba (model_input scaler X))
          as [ps Hp]; [|congruence].
        intros x Hx. apply Hacc. rewrite Forall_forall in Hnum'. auto.
      + destruct (all_some_total predict (model_input scaler X))
          as [ps Hp].
        { intros x Hx. apply Hacc. rewrite Forall_forall in Hnum'. auto. }
        exists ps. split; [exact Hp|].
        eapply Forall2_impl; [|apply Hf2, Hp]. intros; now right. }
  destruct Hps as (ps & Hps & Hall).
  assert (Hlen : length (rows games_df) = length ps).
  { apply Forall2_length in Hall.
    rewrite model_input_rows, length_map in Hall.
    unfold X in Hall. now rewrite length_map in Hall. }
  exists X. eexists. split; [exact HX|]. split.
  { unfold X. apply map_ext. intros r. apply map_ext. intros c.
    now destruct (r c). }
  split.
  { unfold prepare. cbn [columns rows].
    change (forallb (has_column {| columns := columns games_df;
              rows := map (fun r c => fillna0 (r c)) (rows games_df) |})
              feature_cols)
      with (forallb (has_column games_df) feature_cols).
    rewrite Hcols. f_equal. unfold X. rewrite map_map.
    apply map_ext. intros r. apply map_ext. intros c. apply fillna0_idem. }
  split; [exact Hnum|]. split; [exact Hnum'|].
  assert (Hscore : score_games predict_proba predict scaler games_df
                     feature_cols
                   = Ok (map (fun rp => score_row (fst rp) (snd rp))
                             (combine (rows games_df) ps))).
  { unfold score_games. rewrite HX, Hps, Hnamed. reflexivity. }
  split; [exact Hscore|]. split.
  { rewrite map_map. cbn [game score_row].
    now apply map_fst_combine. }
  split.
  { apply Forall_forall. intros s Hs. apply in_map_iff in Hs.
    destruct Hs as ([r p] & <- & Hin). cbn [fst snd score_row game
      model_prob_home edge_home edge_away].
    split; [|split].
    - rewrite model_input_rows in Hall. unfold X in Hall.
      rewrite map_map in Hall.
      assert (Hg : forall (l : list (string -> cell)) qs,
                Forall2 (fun x q => predict_proba x = Some q
                                    \/ predict x = Some q)
                  (map (fun r => match scaler with
                                 | Some transform =>
                                     transform (map (fun c => fillna0 (r c))
                                                    feature_cols)
                                 | None => map (fun c => fillna0 (r c))
                                               feature_cols
                                 end) l) qs ->
                In (r, p) (combine l qs) ->
                predict_proba (input_of scaler feature_cols r) = Some p
                \/ predict (input_of scaler feature_cols r) = Some p).
      { induction l as [|a l IH]; intros qs H2 Hc; [contradiction|].
        destruct qs as [|q qs]; [contradiction|].
        inversion H2; subst. destruct Hc as [Hc|Hc].
        - injection Hc as -> ->. assumption.
        - eapply IH; eauto. }
      eapply Hg; eauto.
    - intros q ->. reflexivity.
    - intros q ->. reflexivity. }
  unfold predict_variant_b. now rewrite Hscore.
Qed.

End Estimator.

Lemma strict_model_accepts : accepts_numbers strict_model.
Proof.
  intros x Hx. unfold strict_model. rewrite Hx.
  destruct x as [|[p|] t]; eauto.
Qed.

Example opening_night_is_scored :
  option_map (map (fun s => (model_prob_home s, edge_home s)))
    (match score_games strict_model strict_model None opening_night
             ["home_implied_prob"; "ORtg_L5_home"; "MoV_L5_home"]%string
     with Ok df => Some df | Raise _ => None end)
  = Some [ (60 # 100, Some ((60 # 100) - (60 # 100))) ].
Proof. reflexivity. Qed.

Lemma C10_missing_features_witness :
  exists X df,
    prepare opening_night ["home_implied_prob"; "ORtg_L5_home"]%string = Ok X
    /\ X = [[Some (60 # 100); Some 0]]
    /\ score_games strict_model strict_model None opening_night
         ["home_implied_prob"; "ORtg_L5_home"]%string = Ok df
    /\ map game df = rows opening_night.
Proof.
  destruct (C10_missing_features_scored_as_zero strict_model strict_model
              None (or_introl strict_model_accepts)
              (fun t x (H : None = Some t) => ltac:(discriminate H))
              opening_night ["home_implied_prob"; "ORtg_L5_home"]%string
              (15 # 100) eq_refl eq_refl)
    as (X & df & H1 & H2 & _ & _ & _ & H3 & H4 & _).
  exists X, df. repeat split; auto.
Defined.

End PredictFacts.

